(** * dnode: the message processor of the kite repository (src/dnode/dnode.go)

    A shallow embedding of the [Dnode] type and of its methods [New], [Copy],
    [HandleFunc], [Run] and [RemoveCallback].

    Go maps are reference values, so the two registries of a [Dnode] live in a
    store and a [Dnode] holds references to them; the methods have pointer
    receivers, so the [Dnode] structs live in the store as well.  Methods are
    computations in a state-and-panic monad over that store.  [Run] is an
    endless receive loop talking to a transport and is embedded as an
    interaction tree. *)

From stdpp Require Import gmap strings list fin_maps sorting.
From ITree Require Import ITree.

(** ** Values seen through package reflect *)

Module reflect.

(** reflect.Kind, in the order of the Go declaration. *)
Inductive Kind :=
| Invalid | Bool | Int | Int8 | Int16 | Int32 | Int64
| Uint | Uint8 | Uint16 | Uint32 | Uint64 | Uintptr
| Float32 | Float64 | Complex64 | Complex128
| Array | Chan | Func | Interface | Map | Pointer | Slice
| String | Struct | UnsafePointer.

#[global] Instance Kind_eq_dec : EqDecision Kind.
Proof. solve_decision. Defined.

(** reflect.Value: the kind of the dynamic type and the identity of the
    underlying data (for a func, its code pointer; 0 for a nil func). *)
Record Value := mkValue { kind : Kind; word : N }.

#[global] Instance Value_eq_dec : EqDecision Value.
Proof. solve_decision. Defined.

(** The zero Value, whose Kind is Invalid. *)
Definition zero : Value := mkValue Invalid 0.

End reflect.

(** [interface{}]: nil, or a boxed value of some dynamic type. *)
Definition interface := option reflect.Value.

(** reflect.ValueOf: the zero Value for a nil interface. *)
Definition ValueOf (i : interface) : reflect.Value := default reflect.zero i.

(** ** The data model *)

(** Addresses of heap objects. *)
Definition loc := positive.

(** A Go map value is a reference; [None] is the nil map. *)
Definition mapref := option loc.

(** A func value is nil or a code pointer. *)
Definition func := option N.

(** [type Wrapper func(args interface{}, tr Transport) []interface{}] *)
Definition Wrapper := func.

(** [type Runner func(method string, handlerFunc reflect.Value, args *Partial, tr Transport)] *)
Definition Runner := func.

(** A value of interface type [Transport]: nil, or a connection. *)
Inductive Transport := nilTransport | conn (id : N).

#[global] Instance Transport_eq_dec : EqDecision Transport.
Proof. solve_decision. Defined.

(** The width of [uint64]. *)
Definition uint64_mod : N := 2 ^ 64.

(** [type Dnode struct] *)
Record Dnode := mkDnode {
  handlers : mapref;          (* map[string]reflect.Value *)
  callbacks : mapref;         (* map[uint64]reflect.Value *)
  seq : N;                    (* uint64 *)
  transport : Transport;
  WrapMethodArgs : Wrapper;
  WrapCallbackArgs : Wrapper;
  RunMethod : Runner;
  RunCallback : Runner
}.

#[global] Instance Dnode_eq_dec : EqDecision Dnode.
Proof. solve_decision. Defined.

(** The store: the [Dnode] structs, the handler maps and the callback maps
    that have been allocated.  The two map types differ, so a handler map and
    a callback map never alias. *)
Record Store := mkStore {
  dnodes : gmap loc Dnode;
  hmaps : gmap loc (gmap string reflect.Value);
  cmaps : gmap loc (gmap N reflect.Value)
}.

Definition empty_store : Store := mkStore ∅ ∅ ∅.

(** ** Computations that read and write the store and may panic *)

Inductive Result (A : Type) :=
| Done (a : A) (s : Store)
| Panic (msg : string) (s : Store).
Arguments Done {A} a s.
Arguments Panic {A} msg s.

(** The store a computation leaves behind, however it ends. *)
Definition final {A} (r : Result A) : Store :=
  match r with Done _ s => s | Panic _ s => s end.

Definition panics {A} (r : Result A) : bool :=
  match r with Done _ _ => false | Panic _ _ => true end.

Definition M (A : Type) : Type := Store → Result A.

#[global] Instance M_ret : MRet M := λ A a s, Done a s.

#[global] Instance M_bind : MBind M := λ A B f m s,
  match m s with
  | Done a s' => f a s'
  | Panic msg s' => Panic msg s'
  end.

Definition panic {A} (msg : string) : M A := λ s, Panic msg s.

(** The map a reference denotes; a nil reference denotes no map. *)
Definition hmap_of (s : Store) (r : mapref) : option (gmap string reflect.Value) :=
  r ≫= λ l, hmaps s !! l.

Definition cmap_of (s : Store) (r : mapref) : option (gmap N reflect.Value) :=
  r ≫= λ l, cmaps s !! l.

(** [*d]: loading through a nil pointer panics. *)
Definition load (d : loc) : M Dnode := λ s,
  match dnodes s !! d with
  | Some dn => Done dn s
  | None => Panic "runtime error: invalid memory address or nil pointer dereference" s
  end.

(** [&Dnode{...}] *)
Definition alloc_dnode (dn : Dnode) : M loc := λ s,
  let d := fresh (dom (dnodes s)) in
  Done d (mkStore (<[d := dn]> (dnodes s)) (hmaps s) (cmaps s)).

(** [make(map[string]reflect.Value)] *)
Definition make_hmap : M mapref := λ s,
  let l := fresh (dom (hmaps s)) in
  Done (Some l) (mkStore (dnodes s) (<[l := ∅]> (hmaps s)) (cmaps s)).

(** [make(map[uint64]reflect.Value)] *)
Definition make_cmap : M mapref := λ s,
  let l := fresh (dom (cmaps s)) in
  Done (Some l) (mkStore (dnodes s) (hmaps s) (<[l := ∅]> (cmaps s))).

(** [v, ok := m[k]]: reading a nil map finds nothing. *)
Definition hmap_lookup (r : mapref) (k : string) : M (option reflect.Value) := λ s,
  Done (hmap_of s r ≫= λ m, m !! k) s.

(** [m[k] = v]: assigning into a nil map panics. *)
Definition hmap_assign (r : mapref) (k : string) (v : reflect.Value) : M unit := λ s,
  match r, hmap_of s r with
  | Some l, Some m => Done tt (mkStore (dnodes s) (<[l := <[k := v]> m]> (hmaps s)) (cmaps s))
  | _, _ => Panic "assignment to entry in nil map" s
  end.

Definition cmap_assign (r : mapref) (k : N) (v : reflect.Value) : M unit := λ s,
  match r, cmap_of s r with
  | Some l, Some m => Done tt (mkStore (dnodes s) (hmaps s) (<[l := <[k := v]> m]> (cmaps s)))
  | _, _ => Panic "assignment to entry in nil map" s
  end.

(** [delete(m, k)]: a no-op on a nil map and on a missing key. *)
Definition cmap_delete (r : mapref) (k : N) : M unit := λ s,
  match r, cmap_of s r with
  | Some l, Some m => Done tt (mkStore (dnodes s) (hmaps s) (<[l := delete k m]> (cmaps s)))
  | _, _ => Done tt s
  end.

(** ** The methods of dnode.go *)

(** [func New(transport Transport) *Dnode] *)
Definition New (transport : Transport) : M loc :=
  h ← make_hmap;
  c ← make_cmap;
  alloc_dnode {| handlers := h; callbacks := c; seq := 0; transport := transport;
                 WrapMethodArgs := None; WrapCallbackArgs := None;
                 RunMethod := None; RunCallback := None |}.

(** [func (d *Dnode) Copy(transport Transport) *Dnode] *)
Definition Copy (d : loc) (transport : Transport) : M loc :=
  dn ← load d;
  c ← make_cmap;
  alloc_dnode {| handlers := handlers dn; callbacks := c; seq := 0; transport := transport;
                 WrapMethodArgs := WrapMethodArgs dn; WrapCallbackArgs := WrapCallbackArgs dn;
                 RunMethod := RunMethod dn; RunCallback := RunCallback dn |}.

(** [func (d *Dnode) HandleFunc(method string, handler interface{})] *)
Definition HandleFunc (d : loc) (method : string) (handler : interface) : M unit :=
  if decide (method = "") then panic ("dnode: invalid method " +:+ method) else
  if decide (handler = None) then panic "dnode: nil handler" else
  dn ← load d;
  found ← hmap_lookup (handlers dn) method;
  if found is Some _ then panic "dnode: handler already exists for method" else
  let val := ValueOf handler in
  if decide (reflect.kind val ≠ reflect.Func) then panic "dnode: handler must be a func" else
  hmap_assign (handlers dn) method val.

(** [func (d *Dnode) RemoveCallback(id uint64)] *)
Definition RemoveCallback (d : loc) (id : N) : M unit :=
  dn ← load d;
  cmap_delete (callbacks dn) id.

(** ** What a client observes of an instance *)

(** The handler registered under a name, as dispatch would look it up. *)
Definition handler_table (s : Store) (d : loc) : gmap string reflect.Value :=
  default ∅ (dnodes s !! d ≫= λ dn, hmap_of s (handlers dn)).

(** The callback registry of an instance. *)
Definition callback_table (s : Store) (d : loc) : gmap N reflect.Value :=
  default ∅ (dnodes s !! d ≫= λ dn, cmap_of s (callbacks dn)).

(** A field of the struct [d] points to. *)
Definition field {A} (f : Dnode → A) (s : Store) (d : loc) : option A :=
  f <$> dnodes s !! d.

(** An instance as [New] and [Copy] build them: the struct is allocated and
    both registries are allocated maps. *)
Definition live (s : Store) (d : loc) : Prop :=
  ∃ dn, dnodes s !! d = Some dn ∧ is_Some (hmap_of s (handlers dn))
        ∧ is_Some (cmap_of s (callbacks dn)).


(** ** The callback counter *)

(** [*d = dn] *)
Definition store_dnode (d : loc) (dn : Dnode) : M unit := λ s,
  Done tt (mkStore (<[d := dn]> (dnodes s)) (hmaps s) (cmaps s)).

Definition with_seq (dn : Dnode) (n : N) : Dnode :=
  {| handlers := handlers dn; callbacks := callbacks dn; seq := n;
     transport := transport dn;
     WrapMethodArgs := WrapMethodArgs dn; WrapCallbackArgs := WrapCallbackArgs dn;
     RunMethod := RunMethod dn; RunCallback := RunCallback dn |}.

(** Modelled from the spec: registerCallback is not under src/.  The spec has
    "registerCallback(invocable) → id assigns the next sequence value and
    stores the invocable", and the field comment of [seq] has "Next callback
    number. Incremented atomically by registerCallback()".  The id handed out
    is the value of [seq] before the increment; [seq] is a uint64, so the
    increment wraps. *)
Definition registerCallback (d : loc) (val : reflect.Value) : M N :=
  dn ← load d;
  let next := seq dn in
  store_dnode d (with_seq dn ((next + 1) mod uint64_mod));;
  cmap_assign (callbacks dn) next val;;
  mret next.

(** What a client does to the callback registry of an instance over its
    lifetime: a sequence of registrations and removals. *)
Inductive Op :=
| Register (val : reflect.Value)
| Remove (id : N).

(** Run a sequence of operations on [d]; the ids issued, in order. *)
Fixpoint run_ops (d : loc) (ops : list Op) : M (list N) :=
  match ops with
  | [] => mret []
  | Register val :: rest =>
      id ← registerCallback d val;
      ids ← run_ops d rest;
      mret (id :: ids)
  | Remove id :: rest =>
      RemoveCallback d id;;
      run_ops d rest
  end.

(** The number of registrations in a sequence of operations. *)
Fixpoint registrations (ops : list Op) : N :=
  match ops with
  | [] => 0
  | Register _ :: rest => 1 + registrations rest
  | Remove _ :: rest => registrations rest
  end.

(** ** The message *)

(** Modelled from the spec: the declaration of [Path] is not under src/.  The
    spec has "an ordered sequence of keys (object-field name or sequence
    index) identifying a location inside a nested argument tree". *)
Inductive PathKey :=
| Field (name : string)
| Index (i : N).

(** Modelled from the spec: the declaration of [Path] is not under src/.  The
    spec has "ordered list of keys from the argument-tree root to a callback
    position; equality is structural (same length, same keys in order)". *)
Definition Path := list PathKey.

(** Modelled from the spec: the declaration of [Partial] is not under src/.
    The spec has "wraps the raw encoded bytes of a Message's arguments
    field". *)
Record Partial := mkPartial { Raw : list Byte.byte }.

(** [type Message struct] *)
Record Message := mkMessage {
  Method : interface;                     (* interface{} `json:"method"` *)
  Arguments : option Partial;             (* *Partial `json:"arguments"` *)
  Callbacks : option (gmap string Path);  (* map[string]Path `json:"callbacks"`;
                                             [None] is the nil map *)
  Links : list interface                  (* []interface{} `json:"links"` *)
}.

(** [p, ok := m.Callbacks[key]]: reading a nil map finds nothing. *)
Definition callback_at (m : Message) (key : string) : option Path :=
  Callbacks m ≫= λ cb, cb !! key.

(** For stating properties, not code of the program: the number a stored
    path could be taken for.  Only a path that is a single numeric index can
    pass for one number; the empty path, a field name and a path of two or
    more keys cannot. *)
Definition path_as_id (p : Path) : option N :=
  match p with
  | [Index id] => Some id
  | _ => None
  end.

(** ** The receive loop *)

(** A Go [error] value that is not nil. *)
Definition error := string.

(** What the loop asks of its environment.  [Receive d] is the call
    [d.transport.Receive()], answered by the message and the error it
    returns.  [processMessage d msg] is the call [d.processMessage(msg)]; its
    body is not under src/, so the call is left to the environment, which
    answers with what the processing reports ([None] when nothing failed in
    it).  [Run] throws the answer away. *)
Variant dnodeE : Type → Type :=
| Receive (d : loc) : dnodeE (list Byte.byte * option error)
| processMessage (d : loc) (msg : list Byte.byte) : dnodeE (option error).

(** One turn of the [for] loop of [Run]: [inr err] leaves the loop with
    [return err], [inl tt] starts the next turn. *)
Definition Run_body (d : loc) (_ : unit) : itree dnodeE (unit + error) :=
  ITree.bind (ITree.trigger (Receive d)) (λ '(msg, err),
    match err with
    | Some e => Ret (inr e)
    | None => ITree.bind (ITree.trigger (processMessage d msg)) (λ _, Ret (inl tt))
    end).

(** [func (d *Dnode) Run() error] *)
Definition Run (d : loc) : itree dnodeE error :=
  ITree.iter (Run_body d) tt.

(** *** Running a tree against an environment *)

(** An environment gives the calls of the loop their meaning on a world [W]
    of its own: the transport, the peer, and whatever processing a message
    touches.  A call that answers [None] never returns to the loop: it blocks
    for ever, or it panics. *)
Record Env (W : Type) := mkEnv {
  recv : loc → W → option (W * (list Byte.byte * option error));
  proc : loc → list Byte.byte → W → option (W * option error)
}.
Arguments recv {W} _ _ _.
Arguments proc {W} _ _ _ _.

(** What an observer of the loop sees, in order. *)
Inductive Event :=
| ReceiveCalled (d : loc)
| ReceiveReturned (d : loc) (msg : list Byte.byte) (err : option error)
| ProcessStarted (d : loc) (msg : list Byte.byte)
| ProcessCompleted (d : loc) (msg : list Byte.byte) (report : option error).

Inductive Outcome (R : Type) :=
| Returned (r : R)
| Stuck
| OutOfFuel.
Arguments Returned {R} r.
Arguments Stuck {R}.
Arguments OutOfFuel {R}.

(** Run [t] in world [w] for at most [fuel] steps: the events seen and how
    the run stands at the end.  A finished tree needs no fuel. *)
Fixpoint exec {W R} (env : Env W) (fuel : nat) (t : itree dnodeE R) (w : W)
  : list Event * Outcome R :=
  match observe t with
  | RetF r => ([], Returned r)
  | TauF t' =>
      match fuel with
      | O => ([], OutOfFuel)
      | S n => exec env n t' w
      end
  | VisF e k =>
      match fuel with
      | O => ([], OutOfFuel)
      | S n =>
          match e in dnodeE X return (X → itree dnodeE R) → list Event * Outcome R with
          | Receive d => λ k,
              match recv env d w with
              | None => ([ReceiveCalled d], Stuck)
              | Some (w', (msg, err)) =>
                  let '(tr, o) := exec env n (k (msg, err)) w' in
                  (ReceiveCalled d :: ReceiveReturned d msg err :: tr, o)
              end
          | processMessage d msg => λ k,
              match proc env d msg w with
              | None => ([ProcessStarted d msg], Stuck)
              | Some (w', report) =>
                  let '(tr, o) := exec env n (k report) w' in
                  (ProcessStarted d msg :: ProcessCompleted d msg report :: tr, o)
              end
          end k
      end
  end.

(** A transport given by a script: the answers of its successive [Receive]
    calls; when the script is used up, [Receive] blocks.  Processing always
    completes and reports nothing. *)
Definition scripted : Env (list (list Byte.byte * option error)) :=
  {| recv := λ _ w, match w with [] => None | a :: w' => Some (w', a) end;
     proc := λ _ _ w, Some (w, None) |}.

(** One full turn of the loop, as the observer sees it. *)
Definition turn (d : loc) (m : list Byte.byte * option error) : list Event :=
  [ReceiveCalled d; ReceiveReturned d m.1 None;
   ProcessStarted d m.1; ProcessCompleted d m.1 m.2].

(** The last turn: [Receive] returns an error. *)
Definition last_turn (d : loc) (b : list Byte.byte) (e : error) : list Event :=
  [ReceiveCalled d; ReceiveReturned d b (Some e)].

(** From world [w], the successive [Receive] calls of the loop on [d] yield
    the messages of [ms], each processed to completion with the report paired
    with it, and then the error [e] (together with the bytes [b]). *)
Fixpoint yields {W} (env : Env W) (d : loc) (w : W)
    (ms : list (list Byte.byte * option error)) (b : list Byte.byte) (e : error) : Prop :=
  match ms, recv env d w with
  | [], Some (_, (b', Some e')) => b' = b ∧ e' = e
  | m :: ms', Some (w1, (msg, None)) =>
      msg = m.1 ∧
      match proc env d msg w1 with
      | Some (w2, report) => report = m.2 ∧ yields env d w2 ms' b e
      | None => False
      end
  | _, _ => False
  end.

(** The states of the loop as an observer can tell them apart: about to call
    [Receive]; inside [Receive]; holding a received message; processing it;
    stopped. *)
Inductive LoopState :=
| Idle
| Receiving
| Received (msg : list Byte.byte)
| Processing (msg : list Byte.byte)
| Stopped.

(** The event list [tr] is one the loop on [d] can show from state [st]:
    every message received is the next one to be processed, its processing
    starts and completes before [Receive] is called again, and nothing
    follows a failing [Receive]. *)
Fixpoint sequential (d : loc) (st : LoopState) (tr : list Event) : Prop :=
  match tr with
  | [] => True
  | ev :: tr' =>
      match st, ev with
      | Idle, ReceiveCalled d' => d' = d ∧ sequential d Receiving tr'
      | Receiving, ReceiveReturned d' msg None => d' = d ∧ sequential d (Received msg) tr'
      | Receiving, ReceiveReturned d' msg (Some _) => d' = d ∧ sequential d Stopped tr'
      | Received msg, ProcessStarted d' msg' =>
          d' = d ∧ msg' = msg ∧ sequential d (Processing msg) tr'
      | Processing msg, ProcessCompleted d' msg' _ =>
          d' = d ∧ msg' = msg ∧ sequential d Idle tr'
      | _, _ => False
      end
  end.

(** ** Auxiliary predicates *)

(** Two instances whose [handlers] fields hold the same map reference. *)
Definition share_handlers (s : Store) (a b : loc) : Prop :=
  ∃ an bn, dnodes s !! a = Some an ∧ dnodes s !! b = Some bn ∧ handlers an = handlers bn.

(** The counter of [d] stands at [n] and the callback map of [d] is
    allocated. *)
Definition counter_at (s : Store) (d : loc) (n : N) : Prop :=
  ∃ dn cm, dnodes s !! d = Some dn ∧ seq dn = n ∧ cmap_of s (callbacks dn) = Some cm.

(** ** Concrete data for the examples *)

Definition ping : reflect.Value := reflect.mkValue reflect.Func 7.
Definition pong : reflect.Value := reflect.mkValue reflect.Func 8.

(** An instance with one handler and one callback, as by
    [d := New(conn 1); d.HandleFunc("ping", ping)] and one registration. *)
Definition demo_dnode : Dnode :=
  {| handlers := Some 1%positive; callbacks := Some 1%positive; seq := 1;
     transport := conn 1;
     WrapMethodArgs := None; WrapCallbackArgs := None;
     RunMethod := None; RunCallback := None |}.

Definition demo_store : Store :=
  mkStore {[1%positive := demo_dnode]}
          {[1%positive := {["ping" := ping]}]}
          {[1%positive := {[0%N := pong]}]}.

(** The zero value [Dnode{}]: both maps nil. *)
Definition zero_dnode : Dnode :=
  {| handlers := None; callbacks := None; seq := 0; transport := nilTransport;
     WrapMethodArgs := None; WrapCallbackArgs := None;
     RunMethod := None; RunCallback := None |}.

Definition zero_store : Store := mkStore {[1%positive := zero_dnode]} ∅ ∅.

(** A message for the method "ping" whose arguments hold one callback, in
    the field "cb" of the first argument; the callbacks map has its path under
    the key "0". *)
Definition demo_message : Message :=
  {| Method := Some (reflect.mkValue reflect.String 1);
     Arguments := Some (mkPartial [Byte.x5b; Byte.x7b; Byte.x7d; Byte.x5d]);
     Callbacks := Some {["0" := [Index 0; Field "cb"]]};
     Links := [] |}.

(** Two messages and then a closed connection. *)
Definition demo_script : list (list Byte.byte * option error) :=
  [([Byte.x61], None); ([Byte.x62], None); ([], Some "EOF")].

(** ** Client programs *)

(** A call a client can make with what dnode.go exports for setting up and
    maintaining instances. *)
Inductive Call :=
| CallNew (transport : Transport)
| CallCopy (d : loc) (transport : Transport)
| CallHandleFunc (d : loc) (method : string) (handler : interface)
| CallRemoveCallback (d : loc) (id : N).

(** The store after a call, whether it returned or panicked (a client may
    recover from the panic and go on). *)
Definition call (c : Call) (s : Store) : Store :=
  match c with
  | CallNew t => final (New t s)
  | CallCopy d t => final (Copy d t s)
  | CallHandleFunc d method handler => final (HandleFunc d method handler s)
  | CallRemoveCallback d id => final (RemoveCallback d id s)
  end.

(** The store after a sequence of calls, first call first. *)
Definition run_calls (cs : list Call) (s : Store) : Store :=
  foldl (λ s c, call c s) s cs.

(** What holds of every store that calls build from the empty one: every
    struct refers to an allocated handler map and an allocated callback map;
    every entry of a handler map has a non-empty name and a value of kind
    Func; no two structs refer to the same callback map. *)
Definition store_inv (s : Store) : Prop :=
  (∀ d dn, dnodes s !! d = Some dn →
     ∃ lh lc, handlers dn = Some lh ∧ is_Some (hmaps s !! lh) ∧
              callbacks dn = Some lc ∧ is_Some (cmaps s !! lc)) ∧
  (∀ l hm method v, hmaps s !! l = Some hm → hm !! method = Some v →
     method ≠ "" ∧ reflect.kind v = reflect.Func) ∧
  (∀ d1 d2 dn1 dn2, dnodes s !! d1 = Some dn1 → dnodes s !! d2 = Some dn2 →
     d1 ≠ d2 → callbacks dn1 ≠ callbacks dn2).

(** The handler map a call of [HandleFunc] writes to and the value it writes
    there, for a call that gets past every guard; [None] for a call that
    panics. *)
Definition registration (s : Store) (d : loc) (method : string) (handler : interface)
  : option (loc * reflect.Value) :=
  if decide (method = "") then None else
  if decide (handler = None) then None else
  dn ← dnodes s !! d;
  l ← handlers dn;
  hm ← hmaps s !! l;
  if hm !! method is Some _ then None else
  if decide (reflect.kind (ValueOf handler) = reflect.Func)
  then Some (l, ValueOf handler) else None.

(** An event without what the processing reported. *)
Definition erase_report (ev : Event) : Event :=
  match ev with
  | ProcessCompleted d msg _ => ProcessCompleted d msg None
  | _ => ev
  end.

(** The messages [Receive] has handed to the loop, in order. *)
Definition received (tr : list Event) : list (list Byte.byte) :=
  omap (λ ev, if ev is ReceiveReturned _ msg None then Some msg else None) tr.

(** The messages whose processing has completed, in order. *)
Definition completed (tr : list Event) : list (list Byte.byte) :=
  omap (λ ev, if ev is ProcessCompleted _ msg _ then Some msg else None) tr.

(** A program start: an instance, a handler, a copy for a second
    connection, a handler registered through the copy. *)
Definition demo_calls : list Call :=
  [CallNew (conn 1);
   CallHandleFunc 1%positive "ping" (Some ping);
   CallCopy 1%positive (conn 2);
   CallHandleFunc 2%positive "pong" (Some pong)].

(** A transport that never fails: every [Receive] returns the one-byte
    message [a]; the processing of a message reports a failure every time. *)
Definition endless : Env unit :=
  {| recv := λ _ w, Some (w, ([Byte.x61], None));
     proc := λ _ _ w, Some (w, Some "no such method") |}.

(** The scripted transport again, with a processing that reports a failure
    for every message. *)
Definition scripted_failing : Env (list (list Byte.byte * option error)) :=
  {| recv := recv scripted;
     proc := λ _ _ w, Some (w, Some "no such method") |}.

(** ** Proof automation *)

(** Unfold the monad of store computations. *)
Ltac unfold_M :=
  unfold mbind, M_bind, mret, M_ret, panic, load, store_dnode, alloc_dnode,
    make_hmap, make_cmap, hmap_lookup, hmap_assign, cmap_assign, cmap_delete in *.

(** Decide membership in an explicit event list that holds no failing
    [Receive]. *)
Ltac absent H :=
  repeat (apply elem_of_cons in H as [H|H]; [discriminate H|]);
  by apply elem_of_nil in H.

(** * Properties *)

(** ** The receive loop *)

Lemma exec_Run_unfold {W} (env : Env W) d fuel w :
  exec env fuel (Run d) w =
  match fuel with
  | 0 => ([], OutOfFuel)
  | S n =>
    match recv env d w with
    | None => ([ReceiveCalled d], Stuck)
    | Some (w1, (msg, Some e)) => (last_turn d msg e, Returned e)
    | Some (w1, (msg, None)) =>
      match n with
      | 0 => ([ReceiveCalled d; ReceiveReturned d msg None], OutOfFuel)
      | S n1 =>
        match proc env d msg w1 with
        | None => ([ReceiveCalled d; ReceiveReturned d msg None; ProcessStarted d msg], Stuck)
        | Some (w2, report) =>
          match n1 with
          | 0 => (turn d (msg, report), OutOfFuel)
          | S n2 => let '(tr, o) := exec env n2 (Run d) w2 in (turn d (msg, report) ++ tr, o)
          end
        end
      end
    end
  end.
Proof.
  destruct fuel as [|n]; [reflexivity|].
  cbn. destruct (recv env d w) as [[w1 [msg [e|]]]|]; [|cbn|reflexivity].
  { by destruct n. }
  destruct n as [|n1]; [reflexivity|].
  cbn. destruct (proc env d msg w1) as [[w2 report]|]; [|reflexivity].
  destruct n1 as [|n2]; [reflexivity|].
  cbn. by destruct (exec env n2 _ w2).
Qed.

Section Loop.
Context {W : Type} (env : Env W) (d : loc).

Lemma exec_Run_zero w : exec env 0 (Run d) w = ([], OutOfFuel).
Proof. by rewrite exec_Run_unfold. Qed.

(** More fuel than needed changes nothing once the loop has returned. *)
Lemma exec_Run_returned_mono fuel w tr e :
  exec env fuel (Run d) w = (tr, Returned e) →
  ∀ fuel', fuel ≤ fuel' → exec env fuel' (Run d) w = (tr, Returned e).
Proof.
  revert w tr. induction (lt_wf fuel) as [fuel _ IH]. intros w tr He fuel' Hle.
  rewrite exec_Run_unfold in He. rewrite exec_Run_unfold.
  destruct fuel as [|n]; [done|]. destruct fuel' as [|n']; [lia|].
  destruct (recv env d w) as [[w1 [msg [e'|]]]|]; [done| |done].
  destruct n as [|n1]; [done|]. destruct n' as [|n1']; [lia|].
  destruct (proc env d msg w1) as [[w2 report]|]; [|done].
  destruct n1 as [|n2]; [done|]. destruct n1' as [|n2']; [lia|].
  destruct (exec env n2 (Run d) w2) as [tr2 o2] eqn:E2.
  injection He as <- ->.
  by rewrite (IH n2 ltac:(lia) w2 tr2 E2 n2' ltac:(lia)).
Qed.

Lemma turn_no_error m b e : ReceiveReturned d b (Some e) ∉ turn d m.
Proof. intros H. unfold turn in H. absent H. Qed.

(** X12: in every run, complete or not and whatever the environment does,
    the events follow the loop's state machine from [Idle]: [Receive] is
    called, a message it returns is the one whose processing starts next,
    that processing completes before [Receive] is called again, and nothing
    follows a [Receive] that failed. *)
Lemma Run_trace_sequential fuel w :
  sequential d Idle (exec env fuel (Run d) w).1.
Proof.
  revert w. induction (lt_wf fuel) as [fuel _ IH]. intros w.
  rewrite exec_Run_unfold.
  destruct fuel as [|n]; [done|].
  destruct (recv env d w) as [[w1 [msg [e'|]]]|]; [done| |done].
  destruct n as [|n1]; [done|].
  destruct (proc env d msg w1) as [[w2 report]|]; [|done].
  destruct n1 as [|n2]; [done|].
  specialize (IH n2 ltac:(lia) w2).
  destruct (exec env n2 (Run d) w2) as [tr2 o2]. by simpl in *.
Qed.

(** C1: whenever the transport yields the messages M1, ..., Mn and then an
    error, the loop runs one full turn per message, in the order of receipt:
    [Receive] returns Mk, the processing of Mk starts and completes, and only
    then is [Receive] called again; after the last message the failing
    [Receive] ends the run. *)
Theorem Run_processes_in_receipt_order w ms b e fuel :
  yields env d w ms b e →
  3 * length ms + 1 ≤ fuel →
  exec env fuel (Run d) w = (concat (turn d <$> ms) ++ last_turn d b e, Returned e).
Proof.
  revert w fuel. induction ms as [|[m r] ms IH]; intros w fuel Hy Hf;
    rewrite exec_Run_unfold; simpl in Hy.
  - destruct fuel as [|n]; [simpl in Hf; lia|].
    destruct (recv env d w) as [[w1 [msg [e'|]]]|]; [|done..].
    by destruct Hy as [-> ->].
  - simpl length in Hf. destruct fuel as [|[|[|n]]]; [lia..|].
    destruct (recv env d w) as [[w1 [msg [e'|]]]|]; [done| |done].
    destruct Hy as [-> Hy].
    destruct (proc env d m w1) as [[w2 report]|]; [|done].
    destruct Hy as [-> Hy].
    by rewrite (IH w2 n Hy ltac:(lia)).
Qed.

(** C2: at every point of every run, the loop has returned [e] exactly when
    one of its [Receive] calls has returned the error [e]. *)
Theorem Run_returns_iff_Receive_error fuel w e :
  (exec env fuel (Run d) w).2 = Returned e ↔
  ∃ b, ReceiveReturned d b (Some e) ∈ (exec env fuel (Run d) w).1.
Proof.
  revert w. induction (lt_wf fuel) as [fuel _ IH]. intros w.
  rewrite exec_Run_unfold.
  destruct fuel as [|n].
  { simpl. split; [done|]. intros [b Hb]. absent Hb. }
  destruct (recv env d w) as [[w1 [msg [e'|]]]|]; simpl.
  - unfold last_turn. split.
    + intros [= ->]. exists msg. apply elem_of_cons. right. apply elem_of_cons. by left.
    + intros [b Hb]. apply elem_of_cons in Hb as [Hb|Hb]; [discriminate Hb|].
      apply elem_of_cons in Hb as [Hb|Hb]; [by injection Hb as _ ->|].
      by apply elem_of_nil in Hb.
  - destruct n as [|n1]; simpl.
    { split; [done|]. intros [b Hb]. absent Hb. }
    destruct (proc env d msg w1) as [[w2 report]|]; simpl.
    2:{ split; [done|]. intros [b Hb]. absent Hb. }
    destruct n1 as [|n2]; simpl.
    { split; [done|]. intros [b Hb]. by apply turn_no_error in Hb. }
    specialize (IH n2 ltac:(lia) w2).
    destruct (exec env n2 (Run d) w2) as [tr2 o2]. cbn [fst snd] in *.
    rewrite IH. split; intros [b Hb]; exists b.
    + do 4 (apply elem_of_cons; right). done.
    + repeat (apply elem_of_cons in Hb as [Hb|Hb]; [discriminate Hb|]). done.
  - split; [done|]. intros [b Hb]. absent Hb.
Qed.

End Loop.

Example Run_on_demo_script :
  exec scripted 7 (Run 1%positive) demo_script =
  ([ReceiveCalled 1%positive; ReceiveReturned 1%positive [Byte.x61] None;
    ProcessStarted 1%positive [Byte.x61]; ProcessCompleted 1%positive [Byte.x61] None;
    ReceiveCalled 1%positive; ReceiveReturned 1%positive [Byte.x62] None;
    ProcessStarted 1%positive [Byte.x62]; ProcessCompleted 1%positive [Byte.x62] None;
    ReceiveCalled 1%positive; ReceiveReturned 1%positive [] (Some "EOF")],
   Returned "EOF").
Proof. vm_compute. reflexivity. Qed.

(** With no error from the transport the loop keeps waiting in [Receive]. *)
Example Run_blocks_on_silent_transport :
  exec scripted 100 (Run 1%positive) [([Byte.x61], None)] =
  ([ReceiveCalled 1%positive; ReceiveReturned 1%positive [Byte.x61] None;
    ProcessStarted 1%positive [Byte.x61]; ProcessCompleted 1%positive [Byte.x61] None;
    ReceiveCalled 1%positive],
   Stuck).
Proof. vm_compute. reflexivity. Qed.

(** ** The handler registry *)

Lemma store_eta s : mkStore (dnodes s) (hmaps s) (cmaps s) = s.
Proof. by destruct s. Qed.

(** [HandleFunc], guard by guard. *)
Lemma HandleFunc_unfold d method handler s :
  HandleFunc d method handler s =
  if decide (method = "") then Panic ("dnode: invalid method " +:+ method) s else
  if decide (handler = None) then Panic "dnode: nil handler" s else
  match dnodes s !! d with
  | None => Panic "runtime error: invalid memory address or nil pointer dereference" s
  | Some dn =>
      match hmap_of s (handlers dn) ≫= (λ m, m !! method) with
      | Some _ => Panic "dnode: handler already exists for method" s
      | None =>
          if decide (reflect.kind (ValueOf handler) ≠ reflect.Func)
          then Panic "dnode: handler must be a func" s
          else hmap_assign (handlers dn) method (ValueOf handler) s
      end
  end.
Proof.
  unfold HandleFunc. repeat case_decide; try done; unfold_M.
  all: destruct (dnodes s !! d) as [dn|]; [|done].
  all: destruct (hmap_of s (handlers dn)) as [m|]; simpl; [|done].
  all: by destruct (m !! method).
Qed.

Lemma handler_table_lookup s d dn hm :
  dnodes s !! d = Some dn → hmap_of s (handlers dn) = Some hm →
  handler_table s d = hm.
Proof. intros Hd Hh. unfold handler_table. by rewrite Hd; simpl; rewrite Hh. Qed.

(** What a successful [HandleFunc] has done. *)
Lemma HandleFunc_Done_inv d method handler s u s' :
  HandleFunc d method handler s = Done u s' →
  ∃ dn l hm,
    dnodes s !! d = Some dn ∧ handlers dn = Some l ∧ hmaps s !! l = Some hm ∧
    hm !! method = None ∧
    s' = mkStore (dnodes s) (<[l := <[method := ValueOf handler]> hm]> (hmaps s)) (cmaps s).
Proof.
  rewrite HandleFunc_unfold.
  destruct (decide (method = "")); [done|].
  destruct (decide (handler = None)); [done|].
  destruct (dnodes s !! d) as [dn|] eqn:Hd; [|done].
  destruct (hmap_of s (handlers dn) ≫= _) as [v|] eqn:Hl; [done|].
  destruct (decide (reflect.kind (ValueOf handler) ≠ reflect.Func)); [done|].
  unfold hmap_assign.
  destruct (handlers dn) as [l|] eqn:Hr; [|done]. simpl in *.
  destruct (hmaps s !! l) as [hm|] eqn:Hm; [|done]. simpl in *.
  intros [= _ <-]. by exists dn, l, hm.
Qed.

(** A [HandleFunc] that panics has not touched the store. *)
Lemma HandleFunc_Panic_inv d method handler s msg s' :
  HandleFunc d method handler s = Panic msg s' → s' = s.
Proof.
  rewrite HandleFunc_unfold.
  destruct (decide (method = "")); [by intros [= _ <-]|].
  destruct (decide (handler = None)); [by intros [= _ <-]|].
  destruct (dnodes s !! d) as [dn|]; [|by intros [= _ <-]].
  destruct (hmap_of s (handlers dn) ≫= _) as [v|]; [by intros [= _ <-]|].
  destruct (decide (reflect.kind (ValueOf handler) ≠ reflect.Func)); [by intros [= _ <-]|].
  unfold hmap_assign.
  destruct (handlers dn) as [l|]; [|by intros [= _ <-]].
  destruct (hmap_of s (Some l)); [done|by intros [= _ <-]].
Qed.

(** C8: a call of [HandleFunc] that panics leaves the whole store as it was;
    a call that succeeds adds the one entry [method ↦ handler] to the handler
    map of [d], which did not have the key, and changes nothing else. *)
Theorem HandleFunc_atomic d method handler s :
  match HandleFunc d method handler s with
  | Panic _ s' => s' = s
  | Done _ s' =>
      ∃ dn l hm,
        dnodes s !! d = Some dn ∧ handlers dn = Some l ∧ hmaps s !! l = Some hm ∧
        hm !! method = None ∧
        s' = mkStore (dnodes s) (<[l := <[method := ValueOf handler]> hm]> (hmaps s)) (cmaps s)
  end.
Proof.
  destruct (HandleFunc d method handler s) as [u s'|msg s'] eqn:HF.
  - by eapply HandleFunc_Done_inv.
  - by eapply HandleFunc_Panic_inv.
Qed.

(** C3: on an instance whose handler map is allocated, [HandleFunc] panics
    exactly when the name is empty, the handler is nil, the handler is not of
    kind Func, or the name is registered already; otherwise it returns and a
    lookup of the name then finds the handler. *)
Theorem HandleFunc_panics_iff s d dn hm method handler :
  dnodes s !! d = Some dn →
  hmap_of s (handlers dn) = Some hm →
  (panics (HandleFunc d method handler s) = true ↔
     method = "" ∨ handler = None ∨
     reflect.kind (ValueOf handler) ≠ reflect.Func ∨
     is_Some (handler_table s d !! method))
  ∧ (panics (HandleFunc d method handler s) = false →
     ∃ s', HandleFunc d method handler s = Done tt s' ∧
           handler_table s' d !! method = Some (ValueOf handler)).
Proof.
  intros Hd Hh. rewrite (handler_table_lookup s d dn hm Hd Hh).
  rewrite HandleFunc_unfold, Hd, Hh. simpl.
  destruct (decide (method = "")) as [->|Hm]; [split; [naive_solver|done]|].
  destruct (decide (handler = None)) as [->|Hn]; [split; [naive_solver|done]|].
  destruct (hm !! method) as [v|] eqn:Hl; [split; [naive_solver|done]|].
  destruct (decide (reflect.kind (ValueOf handler) ≠ reflect.Func)) as [Hk|Hk];
    [split; [naive_solver|done]|].
  unfold hmap_assign.
  destruct (handlers dn) as [l|] eqn:Hr; [|done]. rewrite Hh. simpl. split.
  - split; [done|]. intros [?|[?|[?|[? ?]]]]; done.
  - intros _. eexists. split; [done|].
    unfold handler_table. simpl. rewrite Hd. simpl. rewrite Hr. simpl.
    rewrite lookup_insert_eq. simpl. by rewrite lookup_insert_eq.
Qed.

(** [New] returns a live instance with empty registries, counter 0, the
    given transport and no hooks. *)
Lemma New_spec t s :
  ∃ d s',
    New t s = Done d s' ∧ live s' d ∧
    handler_table s' d = ∅ ∧ callback_table s' d = ∅ ∧
    field seq s' d = Some 0%N ∧ field transport s' d = Some t.
Proof.
  eexists _, _. split; [reflexivity|].
  unfold live, handler_table, callback_table, field, hmap_of, cmap_of. simpl.
  rewrite !lookup_insert_eq. simpl. rewrite !lookup_insert_eq.
  split; [|done]. eexists. split; [done|]. simpl. rewrite !lookup_insert_eq.
  split; by eexists.
Qed.

(** A successful [HandleFunc] keeps an instance live. *)
Lemma HandleFunc_live d method handler s s' d' :
  HandleFunc d method handler s = Done tt s' → live s d' → live s' d'.
Proof.
  intros HF (dn' & Hd' & [hm' Hh'] & Hc').
  destruct (HandleFunc_Done_inv _ _ _ _ _ _ HF) as (dn & l & hm & Hd & Hl & Hm & _ & ->).
  exists dn'. simpl. split; [done|]. split; [|done].
  unfold hmap_of in *. destruct (handlers dn') as [l'|]; [|done]. simpl in *.
  destruct (decide (l = l')) as [<-|Hne].
  - rewrite lookup_insert_eq. by eexists.
  - rewrite lookup_insert_ne by done. by eexists.
Qed.

Example HandleFunc_after_New :
  (d ← New (conn 1); HandleFunc d "ping" (Some ping);; mret d) empty_store =
  Done 1%positive
    (mkStore {[1%positive := mkDnode (Some 1%positive) (Some 1%positive) 0 (conn 1)
                                     None None None None]}
             {[1%positive := {["ping" := ping]}]}
             {[1%positive := ∅]}).
Proof. vm_compute. reflexivity. Qed.

Example HandleFunc_empty_name :
  HandleFunc 1%positive "" (Some pong) demo_store =
  Panic "dnode: invalid method " demo_store.
Proof. reflexivity. Qed.

Example HandleFunc_nil_handler :
  HandleFunc 1%positive "pong" None demo_store = Panic "dnode: nil handler" demo_store.
Proof. reflexivity. Qed.

Example HandleFunc_duplicate :
  HandleFunc 1%positive "ping" (Some pong) demo_store =
  Panic "dnode: handler already exists for method" demo_store.
Proof. reflexivity. Qed.

Example HandleFunc_not_a_func :
  HandleFunc 1%positive "pong" (Some (reflect.mkValue reflect.Int 3)) demo_store =
  Panic "dnode: handler must be a func" demo_store.
Proof. reflexivity. Qed.

(** Outside the instances [New] and [Copy] build, the Go runtime panics: a
    zero-value [Dnode] has a nil handler map, and a nil receiver has no struct
    to read. *)
Example HandleFunc_on_zero_value :
  HandleFunc 1%positive "ping" (Some ping) zero_store =
  Panic "assignment to entry in nil map" zero_store.
Proof. reflexivity. Qed.

Example HandleFunc_on_nil_receiver :
  HandleFunc 1%positive "ping" (Some ping) empty_store =
  Panic "runtime error: invalid memory address or nil pointer dereference" empty_store.
Proof. reflexivity. Qed.

(** ** Copy *)

Lemma fresh_dnode_ne s d dn :
  dnodes s !! d = Some dn → fresh (dom (dnodes s)) ≠ d.
Proof.
  intros Hd Heq. apply (is_fresh (dom (dnodes s))).
  rewrite Heq. apply elem_of_dom. by exists dn.
Qed.

Lemma fresh_cmap_None s : cmaps s !! fresh (dom (cmaps s)) = None.
Proof. apply not_elem_of_dom, is_fresh. Qed.

(** [Copy], step by step, on an allocated receiver. *)
Lemma Copy_unfold s d dn t2 :
  dnodes s !! d = Some dn →
  Copy d t2 s =
  Done (fresh (dom (dnodes s)))
    (mkStore
       (<[fresh (dom (dnodes s)) :=
            {| handlers := handlers dn; callbacks := Some (fresh (dom (cmaps s)));
               seq := 0; transport := t2;
               WrapMethodArgs := WrapMethodArgs dn; WrapCallbackArgs := WrapCallbackArgs dn;
               RunMethod := RunMethod dn; RunCallback := RunCallback dn |}]> (dnodes s))
       (hmaps s)
       (<[fresh (dom (cmaps s)) := ∅]> (cmaps s))).
Proof. intros Hd. unfold Copy. unfold_M. by rewrite Hd. Qed.

(** The callback registry an instance shows is the same whether or not a
    fresh, empty callback map has been allocated next to it. *)
Lemma cmap_of_alloc_default s r :
  default ∅ (r ≫= λ l, <[fresh (dom (cmaps s)) := ∅]> (cmaps s) !! l) =
  default ∅ (cmap_of s r).
Proof.
  unfold cmap_of. destruct r as [l|]; [|done]. simpl.
  destruct (decide (fresh (dom (cmaps s)) = l)) as [<-|Hne].
  - by rewrite lookup_insert_eq, fresh_cmap_None.
  - by rewrite lookup_insert_ne.
Qed.

(** C4: [Copy] returns a new instance.  A lookup of a handler on the copy
    finds what the same lookup finds on the source; the callback registry of
    the copy is empty; its counter is 0, the value [New] starts it at; its
    four hooks are those of the source; it is bound to the new transport; the
    source's struct and both of its registries are as before. *)
Theorem Copy_spec s d dn t2 :
  dnodes s !! d = Some dn →
  ∃ c s',
    Copy d t2 s = Done c s' ∧ c ≠ d ∧
    (∀ method v, handler_table s d !! method = Some v →
                 handler_table s' c !! method = Some v) ∧
    callback_table s' c = ∅ ∧
    field seq s' c = Some 0%N ∧
    field WrapMethodArgs s' c = Some (WrapMethodArgs dn) ∧
    field WrapCallbackArgs s' c = Some (WrapCallbackArgs dn) ∧
    field RunMethod s' c = Some (RunMethod dn) ∧
    field RunCallback s' c = Some (RunCallback dn) ∧
    field transport s' c = Some t2 ∧
    dnodes s' !! d = Some dn ∧
    handler_table s' d = handler_table s d ∧
    callback_table s' d = callback_table s d.
Proof.
  intros Hd. pose proof (fresh_dnode_ne s d dn Hd) as Hne.
  eexists _, _. split; [by apply Copy_unfold|].
  split; [done|].
  unfold handler_table, callback_table, field, hmap_of, cmap_of. simpl.
  rewrite lookup_insert_eq, (lookup_insert_ne _ _ _ _ Hne), Hd. simpl.
  rewrite lookup_insert_eq. simpl.
  repeat split; try done.
  apply cmap_of_alloc_default.
Qed.

Lemma handler_table_find s d dn method :
  dnodes s !! d = Some dn →
  handler_table s d !! method = hmap_of s (handlers dn) ≫= (λ hm, hm !! method).
Proof.
  intros Hd. unfold handler_table. rewrite Hd. simpl.
  by destruct (hmap_of s (handlers dn)).
Qed.

Lemma share_handlers_sym s a b : share_handlers s a b → share_handlers s b a.
Proof. intros (an & bn & ? & ? & ?). by exists bn, an. Qed.

Lemma Copy_share_handlers s d t2 c s1 :
  Copy d t2 s = Done c s1 → share_handlers s1 d c.
Proof.
  intros HC. destruct (dnodes s !! d) as [dn|] eqn:Hd.
  - rewrite (Copy_unfold s d dn t2 Hd) in HC. injection HC as <- <-.
    eexists dn, _. simpl. rewrite lookup_insert_eq.
    rewrite (lookup_insert_ne _ _ _ _ (fresh_dnode_ne s d dn Hd)). done.
  - unfold Copy in HC. unfold_M. by rewrite Hd in HC.
Qed.

(** A registration through one of two sharing instances is seen through the
    other. *)
Lemma share_handlers_visible s a b method handler s2 :
  share_handlers s a b →
  HandleFunc a method handler s = Done tt s2 →
  handler_table s2 b !! method = Some (ValueOf handler).
Proof.
  intros (an & bn & Ha & Hb & Heq) HF.
  destruct (HandleFunc_Done_inv _ _ _ _ _ _ HF) as (an' & l & hm & Ha' & Hl & Hm & _ & ->).
  rewrite Ha in Ha'. injection Ha' as <-.
  rewrite (handler_table_find _ b bn); [|done].
  rewrite <- Heq, Hl. unfold hmap_of. simpl.
  rewrite lookup_insert_eq. simpl. by rewrite lookup_insert_eq.
Qed.

(** A name registered through one of two sharing instances is a duplicate for
    the other. *)
Lemma share_handlers_duplicate s a b method handler :
  share_handlers s a b →
  is_Some (handler_table s a !! method) →
  method ≠ "" → handler ≠ None →
  HandleFunc b method handler s = Panic "dnode: handler already exists for method" s.
Proof.
  intros (an & bn & Ha & Hb & Heq) [v Hv] Hm Hn.
  rewrite (handler_table_find _ a an _ Ha), Heq in Hv.
  rewrite HandleFunc_unfold, Hb, Hv.
  by rewrite !decide_False.
Qed.

(** Sharing instances show the same handlers. *)
Lemma share_handlers_table s a b :
  share_handlers s a b → handler_table s a = handler_table s b.
Proof.
  intros (an & bn & Ha & Hb & Heq). unfold handler_table.
  by rewrite Ha, Hb; simpl; rewrite Heq.
Qed.

(** No method of the file writes a [handlers] field, so sharing lasts:
    [HandleFunc], through any receiver and however it ends, keeps it. *)
Lemma HandleFunc_keeps_sharing s a b d method handler :
  share_handlers s a b → share_handlers (final (HandleFunc d method handler s)) a b.
Proof.
  intros Hs. destruct (HandleFunc d method handler s) as [u s'|msg s'] eqn:HF; simpl.
  - by destruct (HandleFunc_Done_inv _ _ _ _ _ _ HF) as (? & ? & ? & _ & _ & _ & _ & ->).
  - by rewrite (HandleFunc_Panic_inv _ _ _ _ _ _ HF).
Qed.

(** C9: after [c = d.Copy(t2)] the two instances hold one handler map.  A
    handler registered through [d] is found by a lookup through [c], and the
    other way round; registering through [c] a name that a lookup through [d]
    finds panics with the duplicate message (for a call that passes the two
    guards that come first: a non-empty name and a non-nil handler). *)
Theorem Copy_shares_handlers s d t2 c s1 :
  Copy d t2 s = Done c s1 →
  (∀ method handler s2,
     HandleFunc d method handler s1 = Done tt s2 →
     handler_table s2 c !! method = Some (ValueOf handler)) ∧
  (∀ method handler s2,
     HandleFunc c method handler s1 = Done tt s2 →
     handler_table s2 d !! method = Some (ValueOf handler)) ∧
  (∀ method handler,
     is_Some (handler_table s1 d !! method) →
     method ≠ "" → handler ≠ None →
     HandleFunc c method handler s1 =
       Panic "dnode: handler already exists for method" s1).
Proof.
  intros HC. pose proof (Copy_share_handlers s d t2 c s1 HC) as Hsh.
  split; [|split].
  - intros method handler s2. by apply share_handlers_visible.
  - intros method handler s2. by apply share_handlers_visible, share_handlers_sym.
  - intros method handler. by apply share_handlers_duplicate.
Qed.

(** [Copy] of a live instance returns a live instance and keeps every live
    instance live. *)
Lemma Copy_live s d t2 c s' :
  Copy d t2 s = Done c s' → live s d → live s' c ∧ ∀ d', live s d' → live s' d'.
Proof.
  intros HC (dn & Hd & Hh & Hc).
  rewrite (Copy_unfold s d dn t2 Hd) in HC. injection HC as <- <-.
  split.
  - eexists. simpl. rewrite lookup_insert_eq. split; [done|]. simpl.
    split; [done|]. unfold cmap_of. simpl. rewrite lookup_insert_eq. by eexists.
  - intros d' (dn' & Hd' & Hh' & [cm' Hc']).
    exists dn'. simpl. split; [|split; [done|]].
    + rewrite lookup_insert_ne; [done|]. by eapply fresh_dnode_ne.
    + unfold cmap_of in *. destruct (callbacks dn') as [l|]; [|done]. simpl in *.
      rewrite lookup_insert_ne; [by eexists|].
      intros <-. by rewrite fresh_cmap_None in Hc'.
Qed.

(** ** RemoveCallback *)

(** [RemoveCallback], step by step, on an allocated receiver. *)
Lemma RemoveCallback_unfold s d dn id :
  dnodes s !! d = Some dn →
  RemoveCallback d id s = cmap_delete (callbacks dn) id s.
Proof. intros Hd. unfold RemoveCallback. unfold_M. by rewrite Hd. Qed.

Lemma callback_table_find s d dn :
  dnodes s !! d = Some dn →
  callback_table s d = default ∅ (cmap_of s (callbacks dn)).
Proof. intros Hd. unfold callback_table. by rewrite Hd. Qed.

(** C6: [RemoveCallback] returns without a panic; with [id] absent from the
    registry the store is left as it was; in every case the registry
    afterwards is the one before with the entry of [id] deleted; a second
    [RemoveCallback] of the same [id] returns and leaves the store of the
    first. *)
Theorem RemoveCallback_idempotent s d dn id :
  dnodes s !! d = Some dn →
  ∃ s',
    RemoveCallback d id s = Done tt s' ∧
    (callback_table s d !! id = None → s' = s) ∧
    callback_table s' d = delete id (callback_table s d) ∧
    RemoveCallback d id s' = Done tt s'.
Proof.
  intros Hd. rewrite (RemoveCallback_unfold s d dn id Hd).
  rewrite (callback_table_find s d dn Hd).
  unfold cmap_delete.
  destruct (callbacks dn) as [l|] eqn:Hc; simpl.
  2:{ exists s. rewrite (RemoveCallback_unfold s d dn id Hd), Hc.
      rewrite (callback_table_find s d dn Hd), Hc. simpl.
      by rewrite delete_empty. }
  destruct (cmaps s !! l) as [cm|] eqn:Hl; simpl.
  2:{ exists s. rewrite (RemoveCallback_unfold s d dn id Hd), Hc.
      rewrite (callback_table_find s d dn Hd), Hc. unfold cmap_delete. simpl.
      rewrite Hl. simpl. by rewrite delete_empty. }
  eexists. split; [done|]. split; [|split].
  - intros Hid. rewrite delete_id by done. rewrite insert_id by done.
    apply store_eta.
  - rewrite (callback_table_find _ d dn) by done. rewrite Hc.
    unfold cmap_of. simpl. by rewrite lookup_insert_eq.
  - rewrite (RemoveCallback_unfold _ d dn id) by done. rewrite Hc.
    unfold cmap_delete, cmap_of. simpl. rewrite lookup_insert_eq.
    by rewrite insert_insert_eq, delete_delete_eq.
Qed.

(** C10: however [RemoveCallback] ends, the [Dnode] structs (so the counter,
    the transport and the four hooks of every instance) and all handler maps
    are as before. *)
Theorem RemoveCallback_frame d id s :
  dnodes (final (RemoveCallback d id s)) = dnodes s ∧
  hmaps (final (RemoveCallback d id s)) = hmaps s ∧
  handler_table (final (RemoveCallback d id s)) d = handler_table s d ∧
  field seq (final (RemoveCallback d id s)) d = field seq s d ∧
  field transport (final (RemoveCallback d id s)) d = field transport s d ∧
  field WrapMethodArgs (final (RemoveCallback d id s)) d = field WrapMethodArgs s d ∧
  field WrapCallbackArgs (final (RemoveCallback d id s)) d = field WrapCallbackArgs s d ∧
  field RunMethod (final (RemoveCallback d id s)) d = field RunMethod s d ∧
  field RunCallback (final (RemoveCallback d id s)) d = field RunCallback s d.
Proof.
  assert (dnodes (final (RemoveCallback d id s)) = dnodes s ∧
          hmaps (final (RemoveCallback d id s)) = hmaps s) as [Hd Hh].
  { unfold RemoveCallback. unfold_M.
    destruct (dnodes s !! d) as [dn|]; [|done].
    destruct (callbacks dn) as [l|]; [|done]. simpl.
    by destruct (cmaps s !! l). }
  unfold handler_table, field, hmap_of. by rewrite Hd, Hh.
Qed.

(** [RemoveCallback] keeps every live instance live. *)
Lemma RemoveCallback_live d id s d' :
  live s d' → live (final (RemoveCallback d id s)) d'.
Proof.
  intros (dn' & Hd' & Hh' & [cm' Hc']).
  unfold RemoveCallback. unfold_M.
  destruct (dnodes s !! d) as [dn|]; [|by exists dn'; eauto].
  destruct (callbacks dn) as [l|]; [|by exists dn'; eauto]. simpl.
  destruct (cmaps s !! l) as [cm|] eqn:Hl; [|by exists dn'; eauto]. simpl.
  exists dn'. simpl. split; [done|]. split; [done|].
  unfold cmap_of in *. destruct (callbacks dn') as [l'|]; [|done]. simpl in *.
  destruct (decide (l = l')) as [<-|Hne].
  - rewrite lookup_insert_eq. by eexists.
  - rewrite lookup_insert_ne by done. by eexists.
Qed.

(** ** The callback counter *)

Lemma registerCallback_step s d n val :
  counter_at s d n →
  ∃ s', registerCallback d val s = Done n s' ∧
        counter_at s' d ((n + 1) mod uint64_mod).
Proof.
  intros (dn & cm & Hd & <- & Hc).
  unfold registerCallback. unfold_M. rewrite Hd. simpl.
  unfold cmap_of in *. simpl.
  destruct (callbacks dn) as [l|] eqn:Hl; [|done]. simpl in *. rewrite Hc.
  eexists. split; [done|].
  eexists (with_seq dn _), _. simpl. rewrite lookup_insert_eq.
  split; [done|]. split; [done|]. rewrite Hl. simpl. by rewrite lookup_insert_eq.
Qed.

Lemma RemoveCallback_step s d n id :
  counter_at s d n →
  ∃ s', RemoveCallback d id s = Done tt s' ∧ counter_at s' d n.
Proof.
  intros (dn & cm & Hd & <- & Hc).
  rewrite (RemoveCallback_unfold s d dn id Hd). unfold cmap_delete.
  destruct (callbacks dn) as [l|] eqn:Hl; [|done]. rewrite Hc.
  eexists. split; [done|].
  exists dn, (delete id cm). simpl. split; [done|]. split; [done|].
  rewrite Hl. unfold cmap_of. simpl. by rewrite lookup_insert_eq.
Qed.

Lemma sorted_lt_NoDup (l : list N) : StronglySorted N.lt l → NoDup l.
Proof.
  induction 1 as [|x l Hs IH Hx]; constructor; [|done].
  intros Hin. rewrite Forall_forall in Hx. specialize (Hx x Hin). lia.
Qed.

(** The ids a sequence of operations issues, from a counter at [n] that has
    room for all its registrations. *)
Lemma run_ops_ids d ops : ∀ s n,
  counter_at s d n →
  (n + registrations ops ≤ uint64_mod)%N →
  ∃ ids s',
    run_ops d ops s = Done ids s' ∧
    Forall (λ i, n ≤ i < n + registrations ops)%N ids ∧
    StronglySorted N.lt ids.
Proof.
  induction ops as [|[val|id] ops IH]; intros s n Hc Hn.
  - exists [], s. repeat split; constructor.
  - cbn [registrations] in Hn.
    destruct (registerCallback_step s d n val Hc) as (s1 & Hr & Hc1).
    assert (n < uint64_mod)%N as Hlt by lia.
    destruct (decide (n + 1 = uint64_mod)%N) as [Hw|Hw].
    + (* the last id of the range: no registration may follow *)
      assert (registrations ops = 0%N) as H0 by lia.
      rewrite Hw, N.Div0.mod_same in Hc1.
      destruct (IH s1 0%N Hc1 ltac:(rewrite H0; done)) as (ids & s2 & Hrun & Hb & _).
      assert (ids = []) as ->.
      { destruct ids as [|i ids]; [done|]. apply Forall_cons in Hb as [Hi _]. lia. }
      exists [n], s2. cbn [run_ops registrations]. unfold mbind, M_bind in *.
      rewrite Hr, Hrun. split; [done|]. split.
      * repeat constructor; lia.
      * repeat constructor.
    + rewrite N.mod_small in Hc1 by lia.
      destruct (IH s1 _ Hc1 ltac:(lia)) as (ids & s2 & Hrun & Hb & Hs).
      exists (n :: ids), s2. cbn [run_ops registrations]. unfold mbind, M_bind in *.
      rewrite Hr, Hrun. split; [done|]. split.
      * constructor; [lia|]. eapply Forall_impl; [exact Hb|]. simpl. lia.
      * constructor; [done|]. eapply Forall_impl; [exact Hb|]. simpl. lia.
  - cbn [registrations] in Hn |- *.
    destruct (RemoveCallback_step s d n id Hc) as (s1 & Hr & Hc1).
    destruct (IH s1 n Hc1 Hn) as (ids & s2 & Hrun & Hb & Hs).
    exists ids, s2. cbn [run_ops]. unfold mbind, M_bind in *.
    by rewrite Hr, Hrun.
Qed.

(** C7: over any sequence of registrations and removals on one instance whose
    counter has room for the registrations (it is a uint64), the ids handed
    out are strictly increasing, so no id is handed out twice, whatever was
    removed in between. *)
Theorem registerCallback_ids_increasing s d dn cm ops :
  dnodes s !! d = Some dn →
  cmap_of s (callbacks dn) = Some cm →
  (seq dn + registrations ops ≤ uint64_mod)%N →
  ∃ ids s',
    run_ops d ops s = Done ids s' ∧
    StronglySorted N.lt ids ∧ NoDup ids ∧
    Forall (λ i, seq dn ≤ i)%N ids.
Proof.
  intros Hd Hc Hn.
  destruct (run_ops_ids d ops s (seq dn)) as (ids & s' & Hrun & Hb & Hs);
    [by exists dn, cm|done|].
  exists ids, s'. split; [done|]. split; [done|]. split; [by apply sorted_lt_NoDup|].
  eapply Forall_impl; [exact Hb|]. simpl. lia.
Qed.

Example registerCallback_after_remove :
  run_ops 1%positive [Register ping; Remove 1; Remove 0; Register pong] demo_store =
  Done [1%N; 2%N]
    (mkStore {[1%positive := with_seq demo_dnode 3]}
             {[1%positive := {["ping" := ping]}]}
             {[1%positive := {[2%N := pong]}]}).
Proof. vm_compute. reflexivity. Qed.

(** ** The message *)

(** C5, as amended: whatever the callbacks field of a message holds under a
    key is a path, stored in a map that is not nil; the path can be any
    ordered sequence of keys, and it is one number only when it is a single
    numeric index. *)
Theorem Callbacks_values_are_paths (m : Message) (key : string) (p : Path) :
  callback_at m key = Some p →
  (∃ cb, Callbacks m = Some cb ∧ cb !! key = Some p) ∧
  (is_Some (path_as_id p) ↔ ∃ id, p = [Index id]) ∧
  (∀ q : Path, ∃ m', callback_at m' key = Some q).
Proof.
  intros Hp. split; [|split].
  - unfold callback_at in Hp. destruct (Callbacks m) as [cb|]; [|done].
    by exists cb.
  - split.
    + intros [id Hid]. destruct p as [|[name|i] [|k p]]; try done. by exists i.
    + intros [id ->]. by exists id.
  - intros q. exists (mkMessage None None (Some {[key := q]}) []).
    unfold callback_at. simpl. apply lookup_singleton_eq.
Qed.

(** C5, as the claim has it, fails: in [demo_message] the value under the key
    "0" is the path of two keys to the field "cb" of the first argument, and
    so not a numeric id. *)
Lemma Callbacks_values_not_ids :
  ¬ (∀ (m : Message) (key : string) (p : Path),
       callback_at m key = Some p → is_Some (path_as_id p)).
Proof.
  intros H.
  destruct (H demo_message "0" [Index 0; Field "cb"] eq_refl) as [id Hid].
  discriminate Hid.
Qed.

(** ** The theorems at concrete instances *)

Lemma Run_processes_in_receipt_order_witness :
  yields scripted 1%positive demo_script
    [([Byte.x61], None); ([Byte.x62], None)] [] "EOF" ∧
  3 * length [([Byte.x61], @None error); ([Byte.x62], None)] + 1 ≤ 7 ∧
  exec scripted 7 (Run 1%positive) demo_script =
    (concat (turn 1%positive <$> [([Byte.x61], None); ([Byte.x62], None)])
       ++ last_turn 1%positive [] "EOF",
     Returned "EOF").
Proof.
  assert (yields scripted 1%positive demo_script
            [([Byte.x61], None); ([Byte.x62], None)] [] "EOF") as Hy.
  { simpl. repeat split; reflexivity. }
  assert (3 * length [([Byte.x61], @None error); ([Byte.x62], None)] + 1 ≤ 7) as Hf.
  { simpl. lia. }
  split; [exact Hy|]. split; [exact Hf|].
  exact (Run_processes_in_receipt_order scripted 1%positive demo_script _ _ _ 7 Hy Hf).
Defined.

Lemma HandleFunc_panics_iff_witness :
  dnodes demo_store !! 1%positive = Some demo_dnode ∧
  hmap_of demo_store (handlers demo_dnode) = Some {["ping" := ping]} ∧
  (panics (HandleFunc 1%positive "pong" (Some pong) demo_store) = true ↔
     "pong" = "" ∨ Some pong = None ∨
     reflect.kind (ValueOf (Some pong)) ≠ reflect.Func ∨
     is_Some (handler_table demo_store 1%positive !! "pong"))
  ∧ (panics (HandleFunc 1%positive "pong" (Some pong) demo_store) = false →
     ∃ s', HandleFunc 1%positive "pong" (Some pong) demo_store = Done tt s' ∧
           handler_table s' 1%positive !! "pong" = Some (ValueOf (Some pong))).
Proof.
  assert (dnodes demo_store !! 1%positive = Some demo_dnode) as Hd by reflexivity.
  assert (hmap_of demo_store (handlers demo_dnode) = Some {["ping" := ping]}) as Hh
    by reflexivity.
  split; [exact Hd|]. split; [exact Hh|].
  exact (HandleFunc_panics_iff demo_store 1%positive demo_dnode _ "pong" (Some pong) Hd Hh).
Defined.

Lemma Copy_spec_witness :
  dnodes demo_store !! 1%positive = Some demo_dnode ∧
  ∃ c s',
    Copy 1%positive (conn 2) demo_store = Done c s' ∧ c ≠ 1%positive ∧
    (∀ method v, handler_table demo_store 1%positive !! method = Some v →
                 handler_table s' c !! method = Some v) ∧
    callback_table s' c = ∅ ∧
    field seq s' c = Some 0%N ∧
    field WrapMethodArgs s' c = Some (WrapMethodArgs demo_dnode) ∧
    field WrapCallbackArgs s' c = Some (WrapCallbackArgs demo_dnode) ∧
    field RunMethod s' c = Some (RunMethod demo_dnode) ∧
    field RunCallback s' c = Some (RunCallback demo_dnode) ∧
    field transport s' c = Some (conn 2) ∧
    dnodes s' !! 1%positive = Some demo_dnode ∧
    handler_table s' 1%positive = handler_table demo_store 1%positive ∧
    callback_table s' 1%positive = callback_table demo_store 1%positive.
Proof.
  assert (dnodes demo_store !! 1%positive = Some demo_dnode) as Hd by reflexivity.
  split; [exact Hd|].
  exact (Copy_spec demo_store 1%positive demo_dnode (conn 2) Hd).
Defined.

Lemma Copy_shares_handlers_witness :
  Copy 1%positive (conn 2) demo_store =
    Done 2%positive (final (Copy 1%positive (conn 2) demo_store)) ∧
  HandleFunc 2%positive "ping" (Some pong) (final (Copy 1%positive (conn 2) demo_store)) =
    Panic "dnode: handler already exists for method"
      (final (Copy 1%positive (conn 2) demo_store)).
Proof.
  assert (Copy 1%positive (conn 2) demo_store =
            Done 2%positive (final (Copy 1%positive (conn 2) demo_store))) as HC
    by (vm_compute; reflexivity).
  split; [exact HC|].
  apply (Copy_shares_handlers demo_store 1%positive (conn 2) 2%positive _ HC).
  - vm_compute. eexists. reflexivity.
  - discriminate.
  - discriminate.
Defined.

Lemma RemoveCallback_idempotent_witness :
  dnodes demo_store !! 1%positive = Some demo_dnode ∧
  ∃ s',
    RemoveCallback 1%positive 0 demo_store = Done tt s' ∧
    (callback_table demo_store 1%positive !! 0%N = None → s' = demo_store) ∧
    callback_table s' 1%positive = delete 0%N (callback_table demo_store 1%positive) ∧
    RemoveCallback 1%positive 0 s' = Done tt s'.
Proof.
  assert (dnodes demo_store !! 1%positive = Some demo_dnode) as Hd by reflexivity.
  split; [exact Hd|].
  exact (RemoveCallback_idempotent demo_store 1%positive demo_dnode 0 Hd).
Defined.

Lemma registerCallback_ids_increasing_witness :
  dnodes demo_store !! 1%positive = Some demo_dnode ∧
  cmap_of demo_store (callbacks demo_dnode) = Some {[0%N := pong]} ∧
  (seq demo_dnode + registrations [Register ping; Remove 1; Register pong] ≤ uint64_mod)%N ∧
  ∃ ids s',
    run_ops 1%positive [Register ping; Remove 1; Register pong] demo_store = Done ids s' ∧
    StronglySorted N.lt ids ∧ NoDup ids ∧
    Forall (λ i, seq demo_dnode ≤ i)%N ids.
Proof.
  assert (dnodes demo_store !! 1%positive = Some demo_dnode) as Hd by reflexivity.
  assert (cmap_of demo_store (callbacks demo_dnode) = Some {[0%N := pong]}) as Hc
    by reflexivity.
  assert (seq demo_dnode + registrations [Register ping; Remove 1; Register pong]
          ≤ uint64_mod)%N as Hn by (vm_compute; discriminate).
  split; [exact Hd|]. split; [exact Hc|]. split; [exact Hn|].
  exact (registerCallback_ids_increasing demo_store 1%positive demo_dnode _ _ Hd Hc Hn).
Defined.

Lemma Callbacks_values_are_paths_witness :
  callback_at demo_message "0" = Some [Index 0; Field "cb"] ∧
  (∃ cb, Callbacks demo_message = Some cb ∧ cb !! "0" = Some [Index 0; Field "cb"]) ∧
  (is_Some (path_as_id [Index 0; Field "cb"]) ↔ ∃ id, [Index 0; Field "cb"] = [Index id]) ∧
  (∀ q : Path, ∃ m', callback_at m' "0" = Some q).
Proof.
  assert (callback_at demo_message "0" = Some [Index 0; Field "cb"]) as Hp
    by reflexivity.
  split; [exact Hp|].
  exact (Callbacks_values_are_paths demo_message "0" _ Hp).
Defined.

(** * Further properties of dnode.go *)

(** ** HandleFunc *)

(** What gets a call of [HandleFunc] past its guards. *)
Lemma HandleFunc_Done_guards d method handler s u s' :
  HandleFunc d method handler s = Done u s' →
  method ≠ "" ∧ handler ≠ None ∧ reflect.kind (ValueOf handler) = reflect.Func.
Proof.
  rewrite HandleFunc_unfold.
  destruct (decide (method = "")); [done|].
  destruct (decide (handler = None)); [done|].
  destruct (dnodes s !! d) as [dn|]; [|done].
  destruct (hmap_of s (handlers dn) ≫= _); [done|].
  destruct (decide (reflect.kind (ValueOf handler) ≠ reflect.Func)) as [|Hk]; [done|].
  intros _. split; [done|]. split; [done|].
  by destruct (decide (reflect.kind (ValueOf handler) = reflect.Func)).
Qed.

(** Writing a new value for an allocated cell is altering the cell. *)
Lemma insert_as_alter `{Countable K} {A} (f : A → A) (m : gmap K A) (k : K) (x : A) :
  m !! k = Some x → <[k := f x]> m = alter f k m.
Proof.
  intros Hk. apply map_eq. intros j. destruct (decide (k = j)) as [<-|Hne].
  - by rewrite lookup_insert_eq, lookup_alter_eq, Hk.
  - by rewrite lookup_insert_ne, lookup_alter_ne.
Qed.

(** The store [HandleFunc] leaves, by the registration it makes. *)
Lemma HandleFunc_final d method handler s :
  final (HandleFunc d method handler s) =
  match registration s d method handler with
  | Some (l, v) => mkStore (dnodes s) (alter (<[method := v]>) l (hmaps s)) (cmaps s)
  | None => s
  end.
Proof.
  rewrite HandleFunc_unfold. unfold registration.
  destruct (decide (method = "")); [done|].
  destruct (decide (handler = None)); [done|].
  destruct (dnodes s !! d) as [dn|]; [|done]. simpl.
  unfold hmap_of, hmap_assign.
  destruct (handlers dn) as [l|]; simpl; [|by case_decide].
  destruct (hmaps s !! l) as [hm|] eqn:Hl; simpl; [|by case_decide].
  destruct (hm !! method); [done|].
  destruct (decide (reflect.kind (ValueOf handler) ≠ reflect.Func)) as [Hk|Hk];
    destruct (decide (reflect.kind (ValueOf handler) = reflect.Func)) as [Hk'|Hk'];
    try done.
  simpl. by rewrite (insert_as_alter (<[method := ValueOf handler]>) _ _ _ Hl).
Qed.

(** The handlers an instance shows after a map of the store was altered. *)
Lemma handler_table_alter s d l f :
  handler_table (mkStore (dnodes s) (alter f l (hmaps s)) (cmaps s)) d =
  if decide ((dnodes s !! d ≫= handlers) = Some l) then
    match hmaps s !! l with Some hm => f hm | None => ∅ end
  else handler_table s d.
Proof.
  unfold handler_table, hmap_of. simpl.
  destruct (dnodes s !! d) as [dn|]; simpl; [|first [done|by case_decide]].
  destruct (handlers dn) as [l'|]; simpl; [|first [done|by case_decide]].
  destruct (decide (Some l' = Some l)) as [[= ->]|Hne].
  - rewrite lookup_alter_eq. by destruct (hmaps s !! l).
  - rewrite lookup_alter_ne; [done|]. congruence.
Qed.

(** X3: the registry of every instance only grows under [HandleFunc],
    whoever the receiver is and however the call ends: a handler found under
    a name before the call is found there, unchanged, after it. *)
Theorem HandleFunc_registry_grows d x method handler s :
  handler_table s d ⊆ handler_table (final (HandleFunc x method handler s)) d.
Proof.
  rewrite HandleFunc_final.
  destruct (registration s x method handler) as [[l v]|] eqn:Hreg; [|done].
  rewrite handler_table_alter. case_decide as Hd; [|done].
  unfold registration in Hreg.
  destruct (decide (method = "")); [done|].
  destruct (decide (handler = None)); [done|].
  destruct (dnodes s !! x) as [xn|]; [|done]. simpl in Hreg.
  destruct (handlers xn) as [lx|]; [|done]. simpl in Hreg.
  destruct (hmaps s !! lx) as [hm|] eqn:Hlx; [|done]. simpl in Hreg.
  destruct (hm !! method) eqn:Hm; [done|].
  case_decide; [|done]. injection Hreg as <- <-.
  unfold handler_table, hmap_of.
  destruct (dnodes s !! d) as [dn|]; [|done]. simpl in *. rewrite Hd. simpl.
  rewrite Hlx. simpl. by apply insert_subseteq.
Qed.

(** X4: a name can be registered once.  After a successful
    [HandleFunc d method h1], every further [HandleFunc d method h2] panics
    and leaves the store alone, the message being the duplicate one for every
    non-nil [h2], and the lookup keeps finding [h1]. *)
Theorem HandleFunc_twice d method h1 h2 s s1 :
  HandleFunc d method h1 s = Done tt s1 →
  handler_table s1 d !! method = Some (ValueOf h1) ∧
  panics (HandleFunc d method h2 s1) = true ∧
  final (HandleFunc d method h2 s1) = s1 ∧
  (h2 ≠ None →
   HandleFunc d method h2 s1 = Panic "dnode: handler already exists for method" s1).
Proof.
  intros HF.
  destruct (HandleFunc_Done_guards _ _ _ _ _ _ HF) as (Hm & _ & _).
  destruct (HandleFunc_Done_inv _ _ _ _ _ _ HF) as (dn & l & hm & Hd & Hl & Hhm & _ & ->).
  assert (handler_table
            (mkStore (dnodes s) (<[l := <[method := ValueOf h1]> hm]> (hmaps s)) (cmaps s))
            d !! method = Some (ValueOf h1)) as Htab.
  { rewrite (handler_table_find _ d dn); [|done]. rewrite Hl. unfold hmap_of. simpl.
    rewrite lookup_insert_eq. simpl. by rewrite lookup_insert_eq. }
  split; [done|].
  rewrite HandleFunc_unfold. simpl. rewrite Hd, Hl. unfold hmap_of. simpl.
  rewrite lookup_insert_eq. simpl. rewrite lookup_insert_eq.
  rewrite decide_False by done.
  destruct (decide (h2 = None)); done.
Qed.

(** The map a registration writes to is the one the receiver refers to. *)
Lemma registration_map s d method handler l v :
  registration s d method handler = Some (l, v) →
  (dnodes s !! d ≫= handlers) = Some l ∧ is_Some (hmaps s !! l) ∧
  v = ValueOf handler.
Proof.
  unfold registration.
  destruct (decide (method = "")); [done|].
  destruct (decide (handler = None)); [done|].
  destruct (dnodes s !! d) as [dn|]; [|done]. simpl.
  destruct (handlers dn) as [l'|]; [|done]. simpl.
  destruct (hmaps s !! l') as [hm|] eqn:Hl; [|done]. simpl.
  destruct (hm !! method); [done|]. case_decide; [|done].
  intros [= <- <-]. rewrite Hl. by eauto.
Qed.

(** A registration under one name does not change what a call under another
    name will do. *)
Lemma registration_alter s l m v d' m' h' :
  m ≠ m' →
  registration (mkStore (dnodes s) (alter (<[m := v]>) l (hmaps s)) (cmaps s)) d' m' h' =
  registration s d' m' h'.
Proof.
  intros Hne. unfold registration. simpl.
  destruct (decide (m' = "")); [done|].
  destruct (decide (h' = None)); [done|].
  destruct (dnodes s !! d') as [dn|]; [|done]. simpl.
  destruct (handlers dn) as [l'|]; [|done]. simpl.
  destruct (decide (l = l')) as [<-|Hl].
  - rewrite lookup_alter_eq. destruct (hmaps s !! l) as [hm|]; [|done]. simpl.
    by rewrite lookup_insert_ne.
  - by rewrite lookup_alter_ne.
Qed.

(** X5: registrations under different names commute.  Two calls of
    [HandleFunc] with different names, through the same or different
    receivers, leave the same store in either order, whether each of them
    returns or panics. *)
Theorem HandleFunc_commute d1 d2 m1 m2 h1 h2 s :
  m1 ≠ m2 →
  final (HandleFunc d2 m2 h2 (final (HandleFunc d1 m1 h1 s))) =
  final (HandleFunc d1 m1 h1 (final (HandleFunc d2 m2 h2 s))).
Proof.
  intros Hne. rewrite (HandleFunc_final d1 m1 h1 s), (HandleFunc_final d2 m2 h2 s).
  destruct (registration s d1 m1 h1) as [[l1 v1]|] eqn:H1;
    destruct (registration s d2 m2 h2) as [[l2 v2]|] eqn:H2;
    rewrite !HandleFunc_final; simpl.
  - rewrite registration_alter by done. rewrite registration_alter by done.
    rewrite H1, H2. simpl. f_equal.
    destruct (decide (l2 = l1)) as [->|Hl].
    + rewrite !alter_alter_eq. apply alter_ext. intros hm _. simpl.
      by apply insert_insert_ne.
    + by apply alter_alter_ne.
  - rewrite registration_alter by done. by rewrite H1, H2.
  - rewrite registration_alter by done. by rewrite H1, H2.
  - by rewrite H1, H2.
Qed.

(** ** New *)

(** [New], step by step. *)
Lemma New_unfold t s :
  New t s =
  Done (fresh (dom (dnodes s)))
    (mkStore
       (<[fresh (dom (dnodes s)) :=
            {| handlers := Some (fresh (dom (hmaps s)));
               callbacks := Some (fresh (dom (cmaps s)));
               seq := 0; transport := t;
               WrapMethodArgs := None; WrapCallbackArgs := None;
               RunMethod := None; RunCallback := None |}]> (dnodes s))
       (<[fresh (dom (hmaps s)) := ∅]> (hmaps s))
       (<[fresh (dom (cmaps s)) := ∅]> (cmaps s))).
Proof. by unfold New; unfold_M. Qed.

Lemma fresh_hmap_None s : hmaps s !! fresh (dom (hmaps s)) = None.
Proof. apply not_elem_of_dom, is_fresh. Qed.

Lemma fresh_dnode_None s : dnodes s !! fresh (dom (dnodes s)) = None.
Proof. apply not_elem_of_dom, is_fresh. Qed.

(** The handlers an instance shows are the same whether or not a fresh, empty
    handler map has been allocated next to them. *)
Lemma hmap_of_alloc_default s r :
  default ∅ (r ≫= λ l, <[fresh (dom (hmaps s)) := ∅]> (hmaps s) !! l) =
  default ∅ (hmap_of s r).
Proof.
  unfold hmap_of. destruct r as [l|]; [|done]. simpl.
  destruct (decide (fresh (dom (hmaps s)) = l)) as [<-|Hne].
  - by rewrite lookup_insert_eq, fresh_hmap_None.
  - by rewrite lookup_insert_ne.
Qed.

(** X1: [New] never panics.  It returns a pointer that was not in use, to a
    live instance with no handler and no callback, counter 0, the given
    transport and nil hooks; every struct that was allocated before, and the
    handlers and callbacks it shows, are as before. *)
Theorem New_fresh_instance t s :
  ∃ d s',
    New t s = Done d s' ∧ dnodes s !! d = None ∧ live s' d ∧
    handler_table s' d = ∅ ∧ callback_table s' d = ∅ ∧
    field seq s' d = Some 0%N ∧ field transport s' d = Some t ∧
    field WrapMethodArgs s' d = Some None ∧ field WrapCallbackArgs s' d = Some None ∧
    field RunMethod s' d = Some None ∧ field RunCallback s' d = Some None ∧
    (∀ d' dn', dnodes s !! d' = Some dn' →
       dnodes s' !! d' = Some dn' ∧
       handler_table s' d' = handler_table s d' ∧
       callback_table s' d' = callback_table s d').
Proof.
  eexists _, _. split; [apply New_unfold|].
  split; [apply fresh_dnode_None|].
  unfold live, handler_table, callback_table, field, hmap_of, cmap_of. simpl.
  rewrite !lookup_insert_eq. simpl. rewrite !lookup_insert_eq.
  split.
  { eexists. split; [done|]. simpl. rewrite !lookup_insert_eq. split; by eexists. }
  do 8 (split; [done|]).
  intros d' dn' Hd'.
  assert (fresh (dom (dnodes s)) ≠ d') as Hne by by eapply fresh_dnode_ne.
  rewrite lookup_insert_ne by done. rewrite Hd'. simpl.
  split; [done|]. split.
  - apply hmap_of_alloc_default.
  - apply cmap_of_alloc_default.
Qed.

(** X2: an instance made by [New] has a handler registry of its own.  A
    registration through the new instance changes nothing in what a live
    older instance shows, and a registration through the older instance
    changes nothing in what the new one shows (unlike after [Copy]). *)
Theorem New_shares_nothing t s d2 s' d1 method handler :
  New t s = Done d2 s' →
  live s d1 →
  handler_table (final (HandleFunc d2 method handler s')) d1 = handler_table s' d1 ∧
  handler_table (final (HandleFunc d1 method handler s')) d2 = handler_table s' d2.
Proof.
  rewrite New_unfold. intros [= <- <-] (dn1 & Hd1 & [hm1 Hh1] & _).
  unfold hmap_of in Hh1. destruct (handlers dn1) as [l1|] eqn:Hl1; [|done].
  simpl in Hh1.
  assert (fresh (dom (hmaps s)) ≠ l1) as Hfl.
  { intros Heq. rewrite <- Heq in Hh1. by rewrite fresh_hmap_None in Hh1. }
  assert (fresh (dom (dnodes s)) ≠ d1) as Hfd by by eapply fresh_dnode_ne.
  set (s' := mkStore _ _ _).
  assert (dnodes s' !! d1 ≫= handlers = Some l1) as H1.
  { unfold s'. simpl. rewrite lookup_insert_ne by done. by rewrite Hd1; simpl. }
  assert (dnodes s' !! fresh (dom (dnodes s)) ≫= handlers
          = Some (fresh (dom (hmaps s)))) as H2.
  { unfold s'. simpl. by rewrite lookup_insert_eq. }
  split; rewrite HandleFunc_final.
  - destruct (registration s' _ method handler) as [[l v]|] eqn:Hreg; [|done].
    apply registration_map in Hreg as (Hl & _ & _). rewrite H2 in Hl.
    injection Hl as <-. rewrite handler_table_alter. rewrite decide_False; [done|].
    rewrite H1. congruence.
  - destruct (registration s' d1 method handler) as [[l v]|] eqn:Hreg; [|done].
    apply registration_map in Hreg as (Hl & _ & _). rewrite H1 in Hl.
    injection Hl as <-. rewrite handler_table_alter. rewrite decide_False; [done|].
    rewrite H2. congruence.
Qed.

(** ** Copy *)

(** X7: sharing is passed on.  A copy of a copy holds the handler map of the
    original: a handler registered through the second copy is found through
    the original, and a name the original has is a duplicate for the second
    copy. *)
Theorem Copy_of_Copy_shares s d t1 c1 s1 t2 c2 s2 :
  Copy d t1 s = Done c1 s1 →
  Copy c1 t2 s1 = Done c2 s2 →
  handler_table s2 c2 = handler_table s2 d ∧
  (∀ method handler s3,
     HandleFunc c2 method handler s2 = Done tt s3 →
     handler_table s3 d !! method = Some (ValueOf handler)) ∧
  (∀ method handler,
     is_Some (handler_table s2 d !! method) → method ≠ "" → handler ≠ None →
     HandleFunc c2 method handler s2 =
       Panic "dnode: handler already exists for method" s2).
Proof.
  intros H1 H2.
  assert (share_handlers s2 d c2) as Hsh.
  { destruct (Copy_share_handlers _ _ _ _ _ H1) as (dn & cn1 & Hd & Hc1 & Heq1).
    destruct (Copy_share_handlers _ _ _ _ _ H2) as (cn1' & cn2 & Hc1' & Hc2 & Heq2).
    rewrite (Copy_unfold s1 c1 cn1 t2 Hc1) in H2. injection H2 as <- <-.
    simpl in *. rewrite lookup_insert_eq in Hc2. injection Hc2 as <-.
    exists dn, (mkDnode (handlers cn1) (Some (fresh (dom (cmaps s1)))) 0 t2
                  (WrapMethodArgs cn1) (WrapCallbackArgs cn1) (RunMethod cn1)
                  (RunCallback cn1)).
    simpl. rewrite lookup_insert_eq. split; [|done].
    rewrite lookup_insert_ne; [done|]. by eapply fresh_dnode_ne. }
  split; [symmetry; by apply share_handlers_table|]. split.
  - intros method handler s3. by apply share_handlers_visible, share_handlers_sym.
  - intros method handler. by apply share_handlers_duplicate.
Qed.

(** ** RemoveCallback *)

(** The store [RemoveCallback] leaves. *)
Lemma RemoveCallback_final d id s :
  final (RemoveCallback d id s) =
  match dnodes s !! d ≫= callbacks with
  | Some l => mkStore (dnodes s) (hmaps s) (alter (delete id) l (cmaps s))
  | None => s
  end.
Proof.
  unfold RemoveCallback. unfold_M.
  destruct (dnodes s !! d) as [dn|]; [|done]. simpl.
  destruct (callbacks dn) as [l|]; [|done]. simpl. unfold cmap_of. simpl.
  destruct (cmaps s !! l) as [cm|] eqn:Hl; simpl.
  - by rewrite (insert_as_alter (delete id) _ _ _ Hl).
  - rewrite alter_id' by done. by rewrite store_eta.
Qed.

(** X8: removals commute.  Two calls of [RemoveCallback], for any ids and
    through any receivers, leave the same store in either order. *)
Theorem RemoveCallback_commute d1 d2 id1 id2 s :
  final (RemoveCallback d2 id2 (final (RemoveCallback d1 id1 s))) =
  final (RemoveCallback d1 id1 (final (RemoveCallback d2 id2 s))).
Proof.
  rewrite (RemoveCallback_final d1 id1 s), (RemoveCallback_final d2 id2 s).
  destruct (dnodes s !! d1 ≫= callbacks) as [l1|] eqn:H1;
    destruct (dnodes s !! d2 ≫= callbacks) as [l2|] eqn:H2;
    rewrite !RemoveCallback_final; simpl; rewrite ?H1, ?H2; try done.
  f_equal. destruct (decide (l2 = l1)) as [->|Hl].
  - rewrite !alter_alter_eq. apply alter_ext. intros cm _. simpl.
    apply delete_delete.
  - by apply alter_alter_ne.
Qed.

(** X9: a removal reaches one registry only.  [RemoveCallback] through an
    instance changes nothing in the callbacks shown by an instance that holds
    another callback map. *)
Theorem RemoveCallback_other_registry s a b an bn id :
  dnodes s !! a = Some an →
  dnodes s !! b = Some bn →
  callbacks an ≠ callbacks bn →
  callback_table (final (RemoveCallback a id s)) b = callback_table s b.
Proof.
  intros Ha Hb Hne. rewrite RemoveCallback_final, Ha. simpl.
  destruct (callbacks an) as [la|] eqn:Hla; [|done].
  unfold callback_table, cmap_of. simpl. rewrite Hb. simpl.
  destruct (callbacks bn) as [lb|]; [|done]. simpl.
  rewrite lookup_alter_ne; [done|]. congruence.
Qed.

(** ** Stores built by calls *)

Lemma is_Some_alter `{Countable K} {A} (f : A → A) (m : gmap K A) (i j : K) :
  is_Some (alter f i m !! j) ↔ is_Some (m !! j).
Proof.
  destruct (decide (i = j)) as [<-|Hne].
  - rewrite lookup_alter_eq. by rewrite fmap_is_Some.
  - by rewrite lookup_alter_ne.
Qed.

Lemma is_Some_insert_mono `{Countable K} {A} (m : gmap K A) (i j : K) (x : A) :
  is_Some (m !! j) → is_Some (<[i := x]> m !! j).
Proof.
  intros Hj. destruct (decide (i = j)) as [<-|Hne].
  - rewrite lookup_insert_eq. by eexists.
  - by rewrite lookup_insert_ne.
Qed.

Lemma registration_guards s d method handler l v :
  registration s d method handler = Some (l, v) →
  method ≠ "" ∧ reflect.kind v = reflect.Func.
Proof.
  unfold registration.
  destruct (decide (method = "")); [done|].
  destruct (decide (handler = None)); [done|].
  destruct (dnodes s !! d) as [dn|]; [|done]. simpl.
  destruct (handlers dn) as [l'|]; [|done]. simpl.
  destruct (hmaps s !! l') as [hm|]; [|done]. simpl.
  destruct (hm !! method); [done|]. case_decide; [|done].
  by intros [= <- <-].
Qed.

Lemma store_inv_empty : store_inv empty_store.
Proof. split; [|split]; intros *; simpl; by rewrite lookup_empty. Qed.

Lemma store_inv_New t s : store_inv s → store_inv (final (New t s)).
Proof.
  intros (Hlive & Hfun & Hapart). rewrite New_unfold. simpl.
  split; [|split]; simpl.
  - intros d dn Hd. destruct (decide (fresh (dom (dnodes s)) = d)) as [<-|Hne].
    + rewrite lookup_insert_eq in Hd. injection Hd as <-. simpl.
      eexists _, _. rewrite !lookup_insert_eq. repeat split; by eexists.
    + rewrite lookup_insert_ne in Hd by done.
      destruct (Hlive d dn Hd) as (lh & lc & ? & ? & ? & ?).
      exists lh, lc. repeat split; try done; by apply is_Some_insert_mono.
  - intros l hm method v Hl Hm.
    destruct (decide (fresh (dom (hmaps s)) = l)) as [<-|Hne].
    + rewrite lookup_insert_eq in Hl. injection Hl as <-. by rewrite lookup_empty in Hm.
    + rewrite lookup_insert_ne in Hl by done. by eapply Hfun.
  - intros d1 d2 dn1 dn2 H1 H2 Hne.
    destruct (decide (fresh (dom (dnodes s)) = d1)) as [<-|Hn1];
      destruct (decide (fresh (dom (dnodes s)) = d2)) as [<-|Hn2]; [done| | |].
    + rewrite lookup_insert_eq in H1. injection H1 as <-. simpl.
      rewrite lookup_insert_ne in H2 by done.
      destruct (Hlive d2 dn2 H2) as (_ & lc & _ & _ & -> & [cm Hc]).
      intros [= Heq]. by rewrite <- Heq, fresh_cmap_None in Hc.
    + rewrite lookup_insert_eq in H2. injection H2 as <-. simpl.
      rewrite lookup_insert_ne in H1 by done.
      destruct (Hlive d1 dn1 H1) as (_ & lc & _ & _ & -> & [cm Hc]).
      intros [= Heq]. by rewrite Heq, fresh_cmap_None in Hc.
    + rewrite lookup_insert_ne in H1, H2 by done. by eapply Hapart.
Qed.

Lemma store_inv_Copy d t s : store_inv s → store_inv (final (Copy d t s)).
Proof.
  intros Hinv. destruct (dnodes s !! d) as [dn0|] eqn:Hd0.
  2:{ unfold Copy. unfold_M. by rewrite Hd0. }
  destruct Hinv as (Hlive & Hfun & Hapart).
  rewrite (Copy_unfold s d dn0 t Hd0). simpl.
  split; [|split]; simpl.
  - intros d' dn Hd. destruct (decide (fresh (dom (dnodes s)) = d')) as [<-|Hne].
    + rewrite lookup_insert_eq in Hd. injection Hd as <-. simpl.
      destruct (Hlive d dn0 Hd0) as (lh & _ & -> & ? & _).
      eexists _, _. rewrite !lookup_insert_eq. repeat split; try done; by eexists.
    + rewrite lookup_insert_ne in Hd by done.
      destruct (Hlive d' dn Hd) as (lh & lc & ? & ? & ? & ?).
      exists lh, lc. repeat split; try done; by apply is_Some_insert_mono.
  - done.
  - intros d1 d2 dn1 dn2 H1 H2 Hne.
    destruct (decide (fresh (dom (dnodes s)) = d1)) as [<-|Hn1];
      destruct (decide (fresh (dom (dnodes s)) = d2)) as [<-|Hn2]; [done| | |].
    + rewrite lookup_insert_eq in H1. injection H1 as <-. simpl.
      rewrite lookup_insert_ne in H2 by done.
      destruct (Hlive d2 dn2 H2) as (_ & lc & _ & _ & -> & [cm Hc]).
      intros [= Heq]. by rewrite <- Heq, fresh_cmap_None in Hc.
    + rewrite lookup_insert_eq in H2. injection H2 as <-. simpl.
      rewrite lookup_insert_ne in H1 by done.
      destruct (Hlive d1 dn1 H1) as (_ & lc & _ & _ & -> & [cm Hc]).
      intros [= Heq]. by rewrite Heq, fresh_cmap_None in Hc.
    + rewrite lookup_insert_ne in H1, H2 by done. by eapply Hapart.
Qed.

Lemma store_inv_HandleFunc d method handler s :
  store_inv s → store_inv (final (HandleFunc d method handler s)).
Proof.
  intros Hinv. rewrite HandleFunc_final.
  destruct (registration s d method handler) as [[l v]|] eqn:Hreg; [|done].
  destruct (registration_guards _ _ _ _ _ _ Hreg) as [Hm Hk].
  destruct Hinv as (Hlive & Hfun & Hapart).
  split; [|split]; simpl.
  - intros d' dn Hd. destruct (Hlive d' dn Hd) as (lh & lc & ? & ? & ? & ?).
    exists lh, lc. repeat split; try done. by apply is_Some_alter.
  - intros l' hm method' v' Hl Hm'. destruct (decide (l = l')) as [<-|Hne].
    + rewrite lookup_alter_eq in Hl.
      destruct (hmaps s !! l) as [hm0|] eqn:Hl0; [|done]. injection Hl as <-.
      destruct (decide (method = method')) as [<-|Hnm].
      * rewrite lookup_insert_eq in Hm'. by injection Hm' as <-.
      * rewrite lookup_insert_ne in Hm' by done. by eapply Hfun.
    + rewrite lookup_alter_ne in Hl by done. by eapply Hfun.
  - done.
Qed.

Lemma store_inv_RemoveCallback d id s :
  store_inv s → store_inv (final (RemoveCallback d id s)).
Proof.
  intros Hinv. rewrite RemoveCallback_final.
  destruct (dnodes s !! d ≫= callbacks) as [l|]; [|done].
  destruct Hinv as (Hlive & Hfun & Hapart).
  split; [|split]; simpl; [|done..].
  intros d' dn Hd. destruct (Hlive d' dn Hd) as (lh & lc & ? & ? & ? & ?).
  exists lh, lc. repeat split; try done. by apply is_Some_alter.
Qed.

Lemma store_inv_run_calls cs : ∀ s, store_inv s → store_inv (run_calls cs s).
Proof.
  induction cs as [|c cs IH]; intros s Hinv; [done|].
  simpl. apply IH. destruct c; simpl.
  - by apply store_inv_New.
  - by apply store_inv_Copy.
  - by apply store_inv_HandleFunc.
  - by apply store_inv_RemoveCallback.
Qed.

(** X6: whatever calls of [New], [Copy], [HandleFunc] and [RemoveCallback] a
    program makes from its start, in any order and whether they return or
    panic, every instance in the store is live: its handler map and its
    callback map are allocated, never nil. *)
Theorem reachable_instances_live cs d :
  is_Some (dnodes (run_calls cs empty_store) !! d) →
  live (run_calls cs empty_store) d.
Proof.
  intros [dn Hd].
  destruct (store_inv_run_calls cs empty_store store_inv_empty) as (Hlive & _ & _).
  destruct (Hlive d dn Hd) as (lh & lc & Hh & ? & Hc & ?).
  exists dn. unfold hmap_of, cmap_of. by rewrite Hh, Hc.
Qed.

(** X10: in every store built by such calls, whatever a lookup in a handler
    registry finds is registered under a non-empty name and is of kind Func:
    no sequence of calls gets an empty name or a non-callable into a
    registry. *)
Theorem reachable_handlers_callable cs d method v :
  handler_table (run_calls cs empty_store) d !! method = Some v →
  method ≠ "" ∧ reflect.kind v = reflect.Func.
Proof.
  destruct (store_inv_run_calls cs empty_store store_inv_empty) as (_ & Hfun & _).
  unfold handler_table, hmap_of.
  destruct (dnodes (run_calls cs empty_store) !! d) as [dn|]; simpl;
    [|by rewrite lookup_empty].
  destruct (handlers dn) as [l|]; simpl; [|by rewrite lookup_empty].
  destruct (hmaps (run_calls cs empty_store) !! l) as [hm|] eqn:Hl; simpl;
    [|by rewrite lookup_empty].
  intros Hm. by eapply Hfun.
Qed.

(** X11: in every store built by such calls, two different instances hold
    different callback maps: handlers may be shared (by [Copy]), callbacks
    never are. *)
Theorem reachable_callbacks_apart cs d1 d2 dn1 dn2 :
  dnodes (run_calls cs empty_store) !! d1 = Some dn1 →
  dnodes (run_calls cs empty_store) !! d2 = Some dn2 →
  d1 ≠ d2 →
  callbacks dn1 ≠ callbacks dn2.
Proof.
  destruct (store_inv_run_calls cs empty_store store_inv_empty) as (_ & _ & Hapart).
  apply Hapart.
Qed.

(** ** Run *)

(** X13: the loop does not end on its own.  With a transport whose
    [Receive] never returns an error, [Run] has not returned after any
    number of steps, whatever the processing of the messages reports. *)
Theorem Run_never_returns_without_error {W} (env : Env W) d fuel w e :
  (∀ w0 w1 b e0, recv env d w0 ≠ Some (w1, (b, Some e0))) →
  (exec env fuel (Run d) w).2 ≠ Returned e.
Proof.
  intros Hrecv. revert w. induction (lt_wf fuel) as [fuel _ IH]. intros w.
  rewrite exec_Run_unfold.
  destruct fuel as [|n]; [done|].
  destruct (recv env d w) as [[w1 [msg [e'|]]]|] eqn:Hr; [|clear Hr|done].
  { by apply Hrecv in Hr. }
  destruct n as [|n1]; [done|].
  destruct (proc env d msg w1) as [[w2 report]|]; [|done].
  destruct n1 as [|n2]; [done|].
  specialize (IH n2 ltac:(lia) w2).
  by destruct (exec env n2 (Run d) w2) as [tr2 o2].
Qed.

(** X14: the loop does not look at what the processing of a message
    reports.  Two environments with the same transport, whose processing
    differs at most in its reports, give runs with the same events (reports
    apart) and the same outcome. *)
Theorem Run_ignores_reports {W} (env1 env2 : Env W) d fuel w :
  (∀ w0, recv env1 d w0 = recv env2 d w0) →
  (∀ msg w0, fst <$> proc env1 d msg w0 = fst <$> proc env2 d msg w0) →
  erase_report <$> (exec env1 fuel (Run d) w).1 =
    erase_report <$> (exec env2 fuel (Run d) w).1 ∧
  (exec env1 fuel (Run d) w).2 = (exec env2 fuel (Run d) w).2.
Proof.
  intros Hrecv Hproc. revert w. induction (lt_wf fuel) as [fuel _ IH]. intros w.
  rewrite !exec_Run_unfold.
  destruct fuel as [|n]; [done|].
  rewrite <- Hrecv.
  destruct (recv env1 d w) as [[w1 [msg [e'|]]]|]; [done| |done].
  destruct n as [|n1]; [done|].
  specialize (Hproc msg w1).
  destruct (proc env1 d msg w1) as [[w2 r1]|];
    destruct (proc env2 d msg w1) as [[w2' r2]|]; try done.
  injection Hproc as <-.
  destruct n1 as [|n2]; [done|].
  specialize (IH n2 ltac:(lia) w2).
  destruct (exec env1 n2 (Run d) w2) as [tr1 o1].
  destruct (exec env2 n2 (Run d) w2) as [tr2 o2].
  cbn [fst snd] in *. destruct IH as [IHt IHo].
  split; [|done]. rewrite !fmap_app. by rewrite IHt.
Qed.

(** X15: where a run stands shows in its last event.  A run that has
    returned [e] ends with the [Receive] that failed with [e]; a run that is
    stuck ends inside the call that has not come back, a [Receive] or the
    processing of a message; a run that is merely out of steps stands between
    two calls. *)
Theorem Run_outcome_last_event {W} (env : Env W) d fuel w :
  match (exec env fuel (Run d) w).2 with
  | Returned e =>
      ∃ b, last (exec env fuel (Run d) w).1 = Some (ReceiveReturned d b (Some e))
  | Stuck =>
      last (exec env fuel (Run d) w).1 = Some (ReceiveCalled d) ∨
      ∃ msg, last (exec env fuel (Run d) w).1 = Some (ProcessStarted d msg)
  | OutOfFuel =>
      last (exec env fuel (Run d) w).1 = None ∨
      (∃ msg, last (exec env fuel (Run d) w).1 = Some (ReceiveReturned d msg None)) ∨
      ∃ msg report,
        last (exec env fuel (Run d) w).1 = Some (ProcessCompleted d msg report)
  end.
Proof.
  revert w. induction (lt_wf fuel) as [fuel _ IH]. intros w.
  rewrite exec_Run_unfold.
  destruct fuel as [|n]; [by left|].
  destruct (recv env d w) as [[w1 [msg [e'|]]]|]; [by exists msg| |by left].
  destruct n as [|n1]; [right; left; by exists msg|].
  destruct (proc env d msg w1) as [[w2 report]|]; [|right; by exists msg].
  destruct n1 as [|n2]; [right; right; by exists msg, report|].
  specialize (IH n2 ltac:(lia) w2).
  destruct (exec env n2 (Run d) w2) as [tr2 o2]. cbn [fst snd] in *.
  rewrite last_app.
  destruct o2 as [e| |].
  - destruct IH as [b ->]. by exists b.
  - destruct IH as [->|[m ->]]; [by left|right; by exists m].
  - destruct IH as [->|[[m ->]|(m & r & ->)]].
    + right; right. by exists msg, report.
    + right; left. by exists m.
    + right; right. by exists m, r.
Qed.

(** X16: the loop drops, repeats and reorders nothing.  In every run the
    messages processed to completion are, in order, the messages [Receive]
    has returned, but for the one message that may still be waiting or in
    processing; once [Run] has returned, every message received has been
    processed. *)
Theorem Run_drops_no_message {W} (env : Env W) d fuel w :
  match (exec env fuel (Run d) w).2 with
  | Returned _ =>
      completed (exec env fuel (Run d) w).1 = received (exec env fuel (Run d) w).1
  | _ =>
      completed (exec env fuel (Run d) w).1 = received (exec env fuel (Run d) w).1 ∨
      ∃ msg, received (exec env fuel (Run d) w).1 =
             completed (exec env fuel (Run d) w).1 ++ [msg]
  end.
Proof.
  revert w. induction (lt_wf fuel) as [fuel _ IH]. intros w.
  rewrite exec_Run_unfold.
  destruct fuel as [|n]; [by left|].
  destruct (recv env d w) as [[w1 [msg [e'|]]]|]; [done| |by left].
  destruct n as [|n1]; [right; by exists msg|].
  destruct (proc env d msg w1) as [[w2 report]|]; [|right; by exists msg].
  destruct n1 as [|n2]; [by left|].
  specialize (IH n2 ltac:(lia) w2).
  destruct (exec env n2 (Run d) w2) as [tr2 o2]. cbn [fst snd] in *.
  unfold received, completed in *. rewrite !omap_app. simpl.
  destruct o2 as [e| |].
  - by rewrite IH.
  - destruct IH as [->|[m ->]]; [by left|right; by exists m].
  - destruct IH as [->|[m ->]]; [by left|right; by exists m].
Qed.

(** ** The further properties at concrete instances *)

Lemma New_shares_nothing_witness :
  New (conn 2) demo_store = Done 2%positive (final (New (conn 2) demo_store)) ∧
  live demo_store 1%positive ∧
  handler_table
    (final (HandleFunc 2%positive "pong" (Some pong) (final (New (conn 2) demo_store))))
    1%positive
  = handler_table (final (New (conn 2) demo_store)) 1%positive ∧
  handler_table
    (final (HandleFunc 1%positive "pong" (Some pong) (final (New (conn 2) demo_store))))
    2%positive
  = handler_table (final (New (conn 2) demo_store)) 2%positive.
Proof.
  assert (New (conn 2) demo_store = Done 2%positive (final (New (conn 2) demo_store)))
    as HN by (vm_compute; reflexivity).
  assert (live demo_store 1%positive) as Hl.
  { exists demo_dnode. split; [reflexivity|]. split; eexists; reflexivity. }
  split; [exact HN|]. split; [exact Hl|].
  exact (New_shares_nothing (conn 2) demo_store 2%positive _ 1%positive "pong"
           (Some pong) HN Hl).
Defined.

Lemma HandleFunc_twice_witness :
  HandleFunc 1%positive "pong" (Some pong) demo_store =
    Done tt (final (HandleFunc 1%positive "pong" (Some pong) demo_store)) ∧
  handler_table (final (HandleFunc 1%positive "pong" (Some pong) demo_store)) 1%positive
    !! "pong" = Some (ValueOf (Some pong)) ∧
  panics (HandleFunc 1%positive "pong" (Some ping)
            (final (HandleFunc 1%positive "pong" (Some pong) demo_store))) = true ∧
  final (HandleFunc 1%positive "pong" (Some ping)
           (final (HandleFunc 1%positive "pong" (Some pong) demo_store)))
    = final (HandleFunc 1%positive "pong" (Some pong) demo_store) ∧
  (Some ping ≠ None →
   HandleFunc 1%positive "pong" (Some ping)
     (final (HandleFunc 1%positive "pong" (Some pong) demo_store)) =
   Panic "dnode: handler already exists for method"
     (final (HandleFunc 1%positive "pong" (Some pong) demo_store))).
Proof.
  assert (HandleFunc 1%positive "pong" (Some pong) demo_store =
            Done tt (final (HandleFunc 1%positive "pong" (Some pong) demo_store)))
    as HF by (vm_compute; reflexivity).
  split; [exact HF|].
  exact (HandleFunc_twice 1%positive "pong" (Some pong) (Some ping) demo_store _ HF).
Defined.

Lemma HandleFunc_commute_witness :
  "pong" ≠ "echo" ∧
  final (HandleFunc 1%positive "echo" (Some ping)
           (final (HandleFunc 1%positive "pong" (Some pong) demo_store))) =
  final (HandleFunc 1%positive "pong" (Some pong)
           (final (HandleFunc 1%positive "echo" (Some ping) demo_store))).
Proof.
  assert ("pong" ≠ "echo") as Hne by discriminate.
  split; [exact Hne|].
  exact (HandleFunc_commute 1%positive 1%positive "pong" "echo" (Some pong) (Some ping)
           demo_store Hne).
Defined.

Lemma reachable_instances_live_witness :
  is_Some (dnodes (run_calls demo_calls empty_store) !! 2%positive) ∧
  live (run_calls demo_calls empty_store) 2%positive.
Proof.
  assert (is_Some (dnodes (run_calls demo_calls empty_store) !! 2%positive)) as Hd.
  { vm_compute. eexists. reflexivity. }
  split; [exact Hd|].
  exact (reachable_instances_live demo_calls 2%positive Hd).
Defined.

Lemma reachable_handlers_callable_witness :
  handler_table (run_calls demo_calls empty_store) 1%positive !! "pong" = Some pong ∧
  "pong" ≠ "" ∧ reflect.kind pong = reflect.Func.
Proof.
  assert (handler_table (run_calls demo_calls empty_store) 1%positive !! "pong"
          = Some pong) as Hh by (vm_compute; reflexivity).
  split; [exact Hh|].
  exact (reachable_handlers_callable demo_calls 1%positive "pong" pong Hh).
Defined.

Lemma reachable_callbacks_apart_witness :
  dnodes (run_calls demo_calls empty_store) !! 1%positive =
    Some (mkDnode (Some 1%positive) (Some 1%positive) 0 (conn 1) None None None None) ∧
  dnodes (run_calls demo_calls empty_store) !! 2%positive =
    Some (mkDnode (Some 1%positive) (Some 2%positive) 0 (conn 2) None None None None) ∧
  1%positive ≠ 2%positive ∧
  Some 1%positive ≠ Some 2%positive.
Proof.
  assert (dnodes (run_calls demo_calls empty_store) !! 1%positive =
    Some (mkDnode (Some 1%positive) (Some 1%positive) 0 (conn 1) None None None None))
    as H1 by (vm_compute; reflexivity).
  assert (dnodes (run_calls demo_calls empty_store) !! 2%positive =
    Some (mkDnode (Some 1%positive) (Some 2%positive) 0 (conn 2) None None None None))
    as H2 by (vm_compute; reflexivity).
  assert (1%positive ≠ 2%positive) as Hne by discriminate.
  split; [exact H1|]. split; [exact H2|]. split; [exact Hne|].
  exact (reachable_callbacks_apart demo_calls 1%positive 2%positive _ _ H1 H2 Hne).
Defined.

Lemma Copy_of_Copy_shares_witness :
  Copy 1%positive (conn 2) demo_store =
    Done 2%positive (final (Copy 1%positive (conn 2) demo_store)) ∧
  Copy 2%positive (conn 3) (final (Copy 1%positive (conn 2) demo_store)) =
    Done 3%positive
      (final (Copy 2%positive (conn 3) (final (Copy 1%positive (conn 2) demo_store)))) ∧
  handler_table
    (final (Copy 2%positive (conn 3) (final (Copy 1%positive (conn 2) demo_store))))
    3%positive
  = handler_table
      (final (Copy 2%positive (conn 3) (final (Copy 1%positive (conn 2) demo_store))))
      1%positive.
Proof.
  assert (Copy 1%positive (conn 2) demo_store =
            Done 2%positive (final (Copy 1%positive (conn 2) demo_store))) as H1
    by (vm_compute; reflexivity).
  assert (Copy 2%positive (conn 3) (final (Copy 1%positive (conn 2) demo_store)) =
    Done 3%positive
      (final (Copy 2%positive (conn 3) (final (Copy 1%positive (conn 2) demo_store)))))
    as H2 by (vm_compute; reflexivity).
  split; [exact H1|]. split; [exact H2|].
  exact (proj1 (Copy_of_Copy_shares demo_store 1%positive (conn 2) 2%positive _
                  (conn 3) 3%positive _ H1 H2)).
Defined.

Lemma RemoveCallback_other_registry_witness :
  dnodes (final (Copy 1%positive (conn 2) demo_store)) !! 2%positive =
    Some (mkDnode (Some 1%positive) (Some 2%positive) 0 (conn 2) None None None None) ∧
  dnodes (final (Copy 1%positive (conn 2) demo_store)) !! 1%positive = Some demo_dnode ∧
  Some 2%positive ≠ callbacks demo_dnode ∧
  callback_table
    (final (RemoveCallback 2%positive 0 (final (Copy 1%positive (conn 2) demo_store))))
    1%positive
  = callback_table (final (Copy 1%positive (conn 2) demo_store)) 1%positive.
Proof.
  assert (dnodes (final (Copy 1%positive (conn 2) demo_store)) !! 2%positive =
    Some (mkDnode (Some 1%positive) (Some 2%positive) 0 (conn 2) None None None None))
    as Ha by (vm_compute; reflexivity).
  assert (dnodes (final (Copy 1%positive (conn 2) demo_store)) !! 1%positive
          = Some demo_dnode) as Hb by (vm_compute; reflexivity).
  assert (Some 2%positive ≠ callbacks demo_dnode) as Hne by discriminate.
  split; [exact Ha|]. split; [exact Hb|]. split; [exact Hne|].
  exact (RemoveCallback_other_registry _ 2%positive 1%positive _ _ 0 Ha Hb Hne).
Defined.

Lemma Run_never_returns_without_error_witness :
  (∀ w0 w1 b e0, recv endless 1%positive w0 ≠ Some (w1, (b, Some e0))) ∧
  (exec endless 50 (Run 1%positive) tt).2 ≠ Returned "EOF".
Proof.
  assert (∀ w0 w1 b e0, recv endless 1%positive w0 ≠ Some (w1, (b, Some e0))) as Hr.
  { intros w0 w1 b e0. discriminate. }
  split; [exact Hr|].
  exact (Run_never_returns_without_error endless 1%positive 50 tt "EOF" Hr).
Defined.

Lemma Run_ignores_reports_witness :
  (∀ w0, recv scripted 1%positive w0 = recv scripted_failing 1%positive w0) ∧
  (∀ msg w0, fst <$> proc scripted 1%positive msg w0
             = fst <$> proc scripted_failing 1%positive msg w0) ∧
  erase_report <$> (exec scripted 7 (Run 1%positive) demo_script).1 =
    erase_report <$> (exec scripted_failing 7 (Run 1%positive) demo_script).1 ∧
  (exec scripted 7 (Run 1%positive) demo_script).2 =
    (exec scripted_failing 7 (Run 1%positive) demo_script).2.
Proof.
  assert (∀ w0, recv scripted 1%positive w0 = recv scripted_failing 1%positive w0)
    as Hr by (intros w0; reflexivity).
  assert (∀ msg w0, fst <$> proc scripted 1%positive msg w0
                    = fst <$> proc scripted_failing 1%positive msg w0)
    as Hp by (intros msg w0; reflexivity).
  split; [exact Hr|]. split; [exact Hp|].
  exact (Run_ignores_reports scripted scripted_failing 1%positive 7 demo_script Hr Hp).
Defined.
